(** * Type-effectiveness aggregation of the Pokémon research team

    A shallow embedding of [src/tools/pokemon_api.py] (the static type chart,
    [_parse_pokemon_data], [get_pokemon_by_name], [analyze_type_weaknesses])
    and of [ReporterAgent.generate_report] in [src/agents/research_agents.py],
    followed by the properties of the weakness/resistance resolver, the
    aggregate analyzer and the report assembler.

    Modelling conventions:
    - Python [int] is [Z]; Python [float] is IEEE binary64, computed with the
      Standard Library's [SpecFloat] operations at [prec = 53], [emax = 1024];
    - a [dict] whose iteration order is observed is an association list in
      insertion order with unique keys; a [dict] that is only looked up is a
      [gmap];
    - a [set] of [str] is its construction history; its contents are a
      [gset string], and the order in which CPython iterates it is a
      parameter ([SetOrder]), because [str] hashes are salted per process;
    - exceptions are the [Raise] branch of a small error monad;
    - the HTTP collaborators are functions handed to the code.  The code is
      embedded twice: over typed responses (the projection of the JSON
      document that the parser reads), where the aggregation is studied, and
      in the module [Raw] over the replies of the session themselves (a
      failed request, a status, a body that is any JSON value), where
      reading a body can raise; the second is shown to agree with the first
      on bodies of the documented shape;
    - strings are byte strings, and the case functions ([lower], [title])
      are those of Python on ASCII text. *)

From Stdlib Require Import ZArith Strings.Ascii.
From Stdlib Require Import Floats.SpecFloat.
From stdpp Require Import gmap strings list sorting pretty.

Open Scope Z_scope.

(** ** Exceptions *)

Inductive exn : Type :=
| ZeroDivisionError
| ValueError.

Inductive result (A : Type) : Type :=
| Ok (a : A)
| Raise (e : exn).

Arguments Ok {A} a.
Arguments Raise {A} e.

#[global] Instance result_ret : MRet result := λ A a, Ok a.
#[global] Instance result_bind : MBind result := λ A B f m,
  match m with
  | Ok a => f a
  | Raise e => Raise e
  end.

(** ** Python floats (IEEE binary64) *)

Definition float : Type := spec_float.
Definition prec : Z := 53.
Definition emax : Z := 1024.

(** [float(n)] for an [int]; exact below 2^53, rounded to nearest-even above. *)
Definition float_of_int (n : Z) : float := binary_normalize prec emax n 0 false.

Definition float_mul (x y : float) : float := SFmul prec emax x y.
Definition float_lt (x y : float) : bool := SFltb x y.
Definition float_le (x y : float) : bool := SFleb x y.
Definition float_eq (x y : float) : bool := SFeqb x y.

Definition is_nan (x : float) : bool :=
  match x with
  | S754_nan => true
  | _ => false
  end.

(** [a / b] on two [int]s: true division.  It raises [ZeroDivisionError] on a
    zero divisor and otherwise returns the correctly rounded quotient, which
    for operands below 2^53 is the binary64 quotient of the converted
    operands. *)
Definition int_truediv (a b : Z) : result float :=
  if decide (b = 0) then Raise ZeroDivisionError
  else Ok (SFdiv prec emax (float_of_int a) (float_of_int b)).

(** [x * n] with a [float] and an [int]: the [int] is converted first. *)
Definition float_mul_int (x : float) (n : Z) : float := float_mul x (float_of_int n).

(** ** Python strings (ASCII fragment) *)

Definition is_upper (c : ascii) : bool :=
  let n := N_of_ascii c in ((65 <=? n) && (n <=? 90))%N.
Definition is_lower (c : ascii) : bool :=
  let n := N_of_ascii c in ((97 <=? n) && (n <=? 122))%N.
Definition to_lower (c : ascii) : ascii :=
  if is_upper c then ascii_of_N (N_of_ascii c + 32) else c.
Definition to_upper (c : ascii) : ascii :=
  if is_lower c then ascii_of_N (N_of_ascii c - 32) else c.

(** [s.lower()] on ASCII text: the letters A-Z are lower-cased and every
    other byte is kept.  (Python also lower-cases the cased characters
    outside ASCII, which this model leaves unchanged.) *)
Fixpoint lower (s : string) : string :=
  match s with
  | EmptyString => EmptyString
  | String c r => String (to_lower c) (lower r)
  end.

Fixpoint title_from (prev_cased : bool) (s : string) : string :=
  match s with
  | EmptyString => EmptyString
  | String c r =>
      if is_upper c || is_lower c
      then String (if prev_cased then to_lower c else to_upper c) (title_from true r)
      else String c (title_from false r)
  end.

(** [s.title()] on ASCII text: a cased character is upper-cased when it
    follows an uncased one (or starts the string) and lower-cased otherwise.
    Only the ASCII letters count as cased here; Python also counts the cased
    characters outside ASCII. *)
Definition title (s : string) : string := title_from false s.

(** [s.replace(old, new)] for one-character [old] and [new]. *)
Fixpoint replace_char (old new : ascii) (s : string) : string :=
  match s with
  | EmptyString => EmptyString
  | String c r => String (if decide (c = old) then new else c) (replace_char old new r)
  end.

(** [sep.join(parts)] *)
Fixpoint join (sep : string) (parts : list string) : string :=
  match parts with
  | [] => EmptyString
  | [p] => p
  | p :: rest => p +:+ sep +:+ join sep rest
  end.

(** [f"{n}"] for an [int]. *)
Definition format_int (n : Z) : string := pretty n.

(** The nearest integer to [10 * m * 2^e], ties to even. *)
Definition round_tenths (m : positive) (e : Z) : Z :=
  let n := 10 * Z.pos m in
  if decide (0 <= e) then n * 2 ^ e
  else
    let d := 2 ^ (- e) in
    let q := n `div` d in
    let r := n `mod` d in
    match 2 * r ?= d with
    | Lt => q
    | Gt => q + 1
    | Eq => if Z.even q then q else q + 1
    end.

(** [f"{x:.1f}"]: the exact binary value correctly rounded to one decimal. *)
Definition format_1f (x : float) : string :=
  match x with
  | S754_nan => "nan"
  | S754_infinity s => (if s then "-" else "") +:+ "inf"
  | S754_zero s => (if s then "-" else "") +:+ "0.0"
  | S754_finite s m e =>
      let t := round_tenths m e in
      (if s then "-" else "") +:+ pretty (t `div` 10) +:+ "." +:+ pretty (t `mod` 10)
  end.

(** ** Insertion-ordered dictionaries *)

Section dict.
Context {V : Type}.

Fixpoint dict_get (k : string) (d : list (string * V)) : option V :=
  match d with
  | [] => None
  | (k', v) :: d' => if decide (k = k') then Some v else dict_get k d'
  end.

(** [d[k] = v]: an existing key keeps its position, a new key goes last. *)
Fixpoint dict_set (k : string) (v : V) (d : list (string * V)) : list (string * V) :=
  match d with
  | [] => [(k, v)]
  | (k', v') :: d' =>
      if decide (k = k') then (k', v) :: d' else (k', v') :: dict_set k v d'
  end.

End dict.

(** ** Sets of strings *)

(** A set value, as the expression that built it. *)
Inductive py_set : Type :=
| set_new                                     (* set() *)
| set_update (s : py_set) (xs : list string)  (* s.update(xs) *)
| set_sub (s t : py_set).                     (* s - t *)

Fixpoint contents (s : py_set) : gset string :=
  match s with
  | set_new => ∅
  | set_update s xs => contents s ∪ list_to_set xs
  | set_sub s t => contents s ∖ contents t
  end.

(** The order in which the interpreter iterates a set.  CPython walks the
    hash table, so the order depends on the per-process hash salt and on how
    the set was built; every element is visited exactly once. *)
Record SetOrder : Type := {
  py_list : py_set → list string;             (* list(s) *)
  py_list_perm : ∀ s, py_list s ≡ₚ elements (contents s)
}.

(** Two concrete iteration orders. *)
Program Definition gset_order : SetOrder :=
  {| py_list := λ s, elements (contents s) |}.
Next Obligation. done. Qed.

Program Definition reversed_gset_order : SetOrder :=
  {| py_list := λ s, reverse (elements (contents s)) |}.
Next Obligation. intros s. apply reverse_Permutation. Qed.

(** ** [src/tools/pokemon_api.py] *)

(** One entry of the type-effectiveness chart. *)
Record type_entry : Type := {
  entry_weaknesses : list string;
  entry_resistances : list string
}.

(** [PokemonAPI._get_simplified_type_chart] *)
Definition _get_simplified_type_chart : gmap string type_entry :=
  list_to_map [
    ("fire", {| entry_weaknesses := ["water"; "ground"; "rock"];
                entry_resistances := ["fire"; "grass"; "ice"; "bug"; "steel"; "fairy"] |});
    ("water", {| entry_weaknesses := ["electric"; "grass"];
                 entry_resistances := ["fire"; "water"; "ice"; "steel"] |});
    ("grass", {| entry_weaknesses := ["fire"; "ice"; "poison"; "flying"; "bug"];
                 entry_resistances := ["water"; "electric"; "grass"; "ground"] |});
    ("electric", {| entry_weaknesses := ["ground"];
                    entry_resistances := ["electric"; "flying"; "steel"] |});
    ("psychic", {| entry_weaknesses := ["bug"; "ghost"; "dark"];
                   entry_resistances := ["fighting"; "psychic"] |});
    ("ice", {| entry_weaknesses := ["fire"; "fighting"; "rock"; "steel"];
               entry_resistances := ["ice"] |});
    ("dragon", {| entry_weaknesses := ["ice"; "dragon"; "fairy"];
                  entry_resistances := ["fire"; "water"; "electric"; "grass"] |});
    ("dark", {| entry_weaknesses := ["fighting"; "bug"; "fairy"];
                entry_resistances := ["ghost"; "dark"] |});
    ("fairy", {| entry_weaknesses := ["poison"; "steel"];
                 entry_resistances := ["fighting"; "bug"; "dark"] |});
    ("normal", {| entry_weaknesses := ["fighting"];
                  entry_resistances := [] |});
    ("fighting", {| entry_weaknesses := ["flying"; "psychic"; "fairy"];
                    entry_resistances := ["rock"; "bug"; "dark"] |});
    ("poison", {| entry_weaknesses := ["ground"; "psychic"];
                  entry_resistances := ["grass"; "fighting"; "poison"; "bug"; "fairy"] |});
    ("ground", {| entry_weaknesses := ["water"; "grass"; "ice"];
                  entry_resistances := ["poison"; "rock"] |});
    ("flying", {| entry_weaknesses := ["electric"; "ice"; "rock"];
                  entry_resistances := ["grass"; "fighting"; "bug"] |});
    ("bug", {| entry_weaknesses := ["fire"; "flying"; "rock"];
               entry_resistances := ["grass"; "fighting"; "ground"] |});
    ("rock", {| entry_weaknesses := ["water"; "grass"; "fighting"; "ground"; "steel"];
                entry_resistances := ["normal"; "fire"; "poison"; "flying"] |});
    ("ghost", {| entry_weaknesses := ["ghost"; "dark"];
                 entry_resistances := ["poison"; "bug"] |});
    ("steel", {| entry_weaknesses := ["fire"; "fighting"; "ground"];
                 entry_resistances := ["normal"; "grass"; "ice"; "flying"; "psychic";
                                       "bug"; "rock"; "dragon"; "steel"; "fairy"] |})
  ].

(** [PokemonAPI._load_type_effectiveness]: the request to [/type] answers
    with a status, or fails ([None]); in every case the method returns the
    simplified chart, which [__init__] stores in [self.type_effectiveness]. *)
Definition _load_type_effectiveness (response_status : option Z) : gmap string type_entry :=
  match response_status with
  | Some status_code =>
      if decide (status_code = 200) then _get_simplified_type_chart
      else _get_simplified_type_chart
  | None => _get_simplified_type_chart
  end.

(** The part of a [/pokemon/<name>] response that the parser reads:
    [data['name']], the [t['type']['name']] of each entry of [data['types']]
    and the [(stat['stat']['name'], stat['base_stat'])] of each entry of
    [data['stats']]. *)
Record pokemon_json : Type := {
  json_name : string;
  json_types : list string;
  json_stats : list (string * Z)
}.

(** The dataclass [PokemonStats]. *)
Record PokemonStats : Type := {
  name : string;
  types : list string;
  hp : Z;
  attack : Z;
  defense : Z;
  special_attack : Z;
  special_defense : Z;
  speed : Z;
  weaknesses : list string;
  resistances : list string
}.

(** The body of the loop [for ptype in types] of [_parse_pokemon_data]; the
    accumulator is the pair [(weaknesses, resistances)]. *)
Definition resolve_step (type_effectiveness : gmap string type_entry)
    (acc : py_set * py_set) (ptype : string) : py_set * py_set :=
  match type_effectiveness !! ptype with
  | Some entry =>
      (set_update acc.1 (entry_weaknesses entry),
       set_update acc.2 (entry_resistances entry))
  | None => acc
  end.

(** The body of the loop [for stat in data['stats']]. *)
Definition stat_step (stats : gmap string Z) (stat : string * Z) : gmap string Z :=
  <[replace_char "-" "_" stat.1 := stat.2]> stats.

(** [PokemonAPI._parse_pokemon_data] *)
Definition _parse_pokemon_data (order : SetOrder)
    (type_effectiveness : gmap string type_entry) (data : pokemon_json) : PokemonStats :=
  let stats := foldl stat_step ∅ (json_stats data) in
  let sets := foldl (resolve_step type_effectiveness) (set_new, set_new) (json_types data) in
  {| name := json_name data;
     types := json_types data;
     hp := default 0 (stats !! "hp");
     attack := default 0 (stats !! "attack");
     defense := default 0 (stats !! "defense");
     special_attack := default 0 (stats !! "special_attack");
     special_defense := default 0 (stats !! "special_defense");
     speed := default 0 (stats !! "speed");
     weaknesses := py_list order (set_sub sets.1 sets.2);
     resistances := py_list order sets.2 |}.

(** The dictionary returned by [analyze_type_weaknesses]. *)
Record analysis : Type := {
  type : string;
  analyzed_pokemon_count : Z;
  weakness_percentages : list (string * float);
  most_common_weakness : option (string * float)
}.

(** [weakness_count[weakness] = weakness_count.get(weakness, 0) + 1] *)
Definition count_weakness (weakness_count : list (string * Z)) (weakness : string)
    : list (string * Z) :=
  dict_set weakness (default 0 (dict_get weakness weakness_count) + 1) weakness_count.

(** The loop [for weakness, count in weakness_count.items()]. *)
Fixpoint percentages_loop (items : list (string * Z)) (total_pokemon : Z)
    (weakness_percentages : list (string * float)) : result (list (string * float)) :=
  match items with
  | [] => Ok weakness_percentages
  | (weakness, count) :: rest =>
      q ← int_truediv count total_pokemon;
      percentages_loop rest total_pokemon
        (dict_set weakness (float_mul_int q 100) weakness_percentages)
  end.

(** The scan of [max(items, key=lambda x: x[1])]: a later item replaces the
    current maximum only when its key is strictly greater. *)
Fixpoint max_from (best : string * float) (rest : list (string * float)) : string * float :=
  match rest with
  | [] => best
  | item :: rest' =>
      if float_lt best.2 item.2 then max_from item rest' else max_from best rest'
  end.

(** [max(items, key=lambda x: x[1])]; the builtin raises [ValueError] on an
    empty iterable. *)
Definition max_by_value (items : list (string * float)) : result (string * float) :=
  match items with
  | [] => Raise ValueError
  | first :: rest => Ok (max_from first rest)
  end.

Section analyze.
(** The two methods that [analyze_type_weaknesses] calls on [self]. *)
Context (get_pokemon_by_type : string → list string).
Context (get_pokemon_by_name : string → option PokemonStats).

(** The body of the loop [for name in sample_pokemon]; the state is
    [(weakness_count, total_pokemon)]. *)
Definition sample_step (st : list (string * Z) * Z) (pokemon_name : string)
    : list (string * Z) * Z :=
  match get_pokemon_by_name pokemon_name with
  | Some pokemon => (foldl count_weakness st.1 (weaknesses pokemon), st.2 + 1)
  | None => st
  end.

(** [PokemonAPI.analyze_type_weaknesses] *)
Definition analyze_type_weaknesses (pokemon_type : string) : result analysis :=
  let pokemon_names := get_pokemon_by_type pokemon_type in
  let sample_size := Nat.min 10 (length pokemon_names) in
  let sample_pokemon := take sample_size pokemon_names in
  let st := foldl sample_step ([], 0) sample_pokemon in
  let weakness_count := st.1 in
  let total_pokemon := st.2 in
  weakness_percentages ← percentages_loop weakness_count total_pokemon [];
  most_common ← match weakness_percentages with
                 | [] => Ok None
                 | _ :: _ => item ← max_by_value weakness_percentages; Ok (Some item)
                 end;
  Ok {| type := pokemon_type;
        analyzed_pokemon_count := total_pokemon;
        weakness_percentages := weakness_percentages;
        most_common_weakness := most_common |}.

End analyze.

Section api.
(** A [PokemonAPI] object: the interpreter's set order, the chart loaded by
    [__init__], and the two endpoints.  An endpoint answers [None] when the
    status is not 200 or the request fails, and otherwise with the typed
    projection of a body of the documented shape.  The replies themselves,
    the line printed for a failed request and the bodies of any other shape
    are in the module [Raw] below. *)
Context (order : SetOrder) (type_effectiveness : gmap string type_entry).
Context (http_pokemon : string → option pokemon_json).
Context (http_type : string → option (list string)).

(** [PokemonAPI.get_pokemon_by_name] *)
Definition get_pokemon_by_name (pokemon_name : string) : option PokemonStats :=
  _parse_pokemon_data order type_effectiveness <$> http_pokemon (lower pokemon_name).

(** [PokemonAPI.get_pokemon_by_type] *)
Definition get_pokemon_by_type (pokemon_type : string) : list string :=
  default [] (http_type (lower pokemon_type)).

(** [analyze_type_weaknesses] on this object. *)
Definition api_analyze_type_weaknesses (pokemon_type : string) : result analysis :=
  analyze_type_weaknesses get_pokemon_by_type get_pokemon_by_name pokemon_type.

End api.

(** ** [src/agents/research_agents.py] *)

(** [sorted(items, key=lambda x: x[1])] is a stable ascending sort: an item
    is placed before the first item whose key is not smaller than its own. *)
Fixpoint insert_by_value (x : string * float) (l : list (string * float))
    : list (string * float) :=
  match l with
  | [] => [x]
  | y :: l' => if float_lt y.2 x.2 then y :: insert_by_value x l' else x :: y :: l'
  end.

Definition sorted_by_value (items : list (string * float)) : list (string * float) :=
  foldr insert_by_value [] items.

(** [sorted(items, key=lambda x: x[1], reverse=True)]: CPython reverses the
    list, sorts it stably and reverses the result, so that equal keys keep
    their original order.  This is the result for keys without NaN; with a
    NaN among them [<] is no order, and the result of [list.sort] depends on
    the comparisons its merge strategy happens to make, which is not
    modelled. *)
Definition sorted_by_value_reverse (items : list (string * float)) : list (string * float) :=
  reverse (sorted_by_value (reverse items)).

(** The value stored under ['weakness_analysis'].  A field is [None] when the
    key is not in the dictionary. *)
Record weakness_data : Type := {
  wd_type : option string;
  wd_analyzed_pokemon_count : option Z;
  wd_most_common_weakness : option (option (string * float));
  wd_weakness_percentages : option (list (string * float))
}.

(** The argument of [generate_report]; only ['weakness_analysis'] is read. *)
Record research_data : Type := {
  weakness_analysis : option weakness_data
}.

(** The dictionary built by [analyze_type_weaknesses] has all four keys. *)
Definition weakness_data_of (a : analysis) : weakness_data :=
  {| wd_type := Some (type a);
     wd_analyzed_pokemon_count := Some (analyzed_pokemon_count a);
     wd_most_common_weakness := Some (most_common_weakness a);
     wd_weakness_percentages := Some (weakness_percentages a) |}.

(** [f"  - {weakness.title()}: {percentage:.1f}%"] *)
Definition distribution_line (item : string * float) : string :=
  "  - " +:+ title item.1 +:+ ": " +:+ format_1f item.2 +:+ "%".

(** The lines appended by the loop over the sorted items. *)
Definition distribution_lines (weakness_percentages : list (string * float)) : list string :=
  distribution_line <$> sorted_by_value_reverse weakness_percentages.

Definition summary_sections (rd : research_data) : list string :=
  match weakness_analysis rd with
  | Some wd =>
      ["Analysis of " +:+ default "Unknown" (wd_type wd) +:+
       " type Pokémon reveals significant strategic insights."]
  | None => []
  end.

Definition most_common_sections (wd : weakness_data) : list string :=
  match wd_most_common_weakness wd with
  | Some (Some (weakness_type, percentage)) =>
      ["- Most common weakness: " +:+ title weakness_type +:+ " type (" +:+
       format_1f percentage +:+ "% of analyzed Pokémon)"]
  | _ => []
  end.

Definition percentages_sections (wd : weakness_data) : list string :=
  match wd_weakness_percentages wd with
  | Some weakness_percentages =>
      "- Weakness distribution:" :: distribution_lines weakness_percentages
  | None => []
  end.

Definition findings_sections (rd : research_data) : list string :=
  match weakness_analysis rd with
  | Some wd =>
      ["- Analyzed " +:+ format_int (default 0 (wd_analyzed_pokemon_count wd)) +:+
       " Pokémon specimens"]
      ++ most_common_sections wd ++ percentages_sections wd
  | None => []
  end.

(** The list [report_sections] at the end of [generate_report]. *)
Definition report_sections (rd : research_data) : list string :=
  ["# Pokémon Research Report"; "## Executive Summary"]
  ++ summary_sections rd
  ++ ["## Methodology";
      "Data collected via PokéAPI with statistical analysis performed on type effectiveness and base stats.";
      "## Key Findings"]
  ++ findings_sections rd
  ++ ["## Strategic Recommendations";
      "Based on the analysis, trainers should consider type coverage and defensive strategies when building teams."].

(** [ReporterAgent.generate_report] *)
Definition generate_report (rd : research_data) : string :=
  join (String "010" (String "010" EmptyString)) (report_sections rd).

(** ** Reference resolver *)

(** The resolver as the specification words it: start from two empty sets;
    for each type present in the table, union its weaknesses into the first
    and its resistances into the second; finally remove every element of the
    second from the first. *)
Definition reference_step (table : gmap string type_entry)
    (acc : gset string * gset string) (t : string) : gset string * gset string :=
  match table !! t with
  | Some entry =>
      (acc.1 ∪ list_to_set (entry_weaknesses entry),
       acc.2 ∪ list_to_set (entry_resistances entry))
  | None => acc
  end.

Definition resolve_reference (type_names : list string) (table : gmap string type_entry)
    : gset string * gset string :=
  let acc := foldl (reference_step table) (∅, ∅) type_names in
  (acc.1 ∖ acc.2, acc.2).

(** ** Specification vocabulary *)

(** A key whose lexicographic order is the order of [SFcompare] on the
    floats that are not NaN. *)
Definition float_key (x : float) : Z * Z * Z :=
  match x with
  | S754_nan => (0, 0, 0)
  | S754_zero _ => (0, 0, 0)
  | S754_infinity s => (if s then -2 else 2, 0, 0)
  | S754_finite s m e => if s then (-1, - e, Z.neg m) else (1, e, Z.pos m)
  end.

Definition key_lt (a b : Z * Z * Z) : Prop :=
  a.1.1 < b.1.1 ∨ (a.1.1 = b.1.1 ∧ (a.1.2 < b.1.2 ∨ (a.1.2 = b.1.2 ∧ a.2 < b.2))).

(** The number of occurrences of [w] in [ws]. *)
Definition occurrences (w : string) (ws : list string) : Z :=
  Z.of_nat (length (filter (λ x, x = w) ws)).

(** The distinct elements of [ws], in the order of their first occurrence. *)
Fixpoint first_seen (ws : list string) : list string :=
  match ws with
  | [] => []
  | w :: ws' => w :: filter (λ x, x ≠ w) (first_seen ws')
  end.

(** The records that an analysis looks at: those that the data source
    returns for the first ten names of the category. *)
Definition sample_records (get_pokemon_by_type : string → list string)
    (get_pokemon_by_name : string → option PokemonStats) (pokemon_type : string)
    : list PokemonStats :=
  omap get_pokemon_by_name (take 10 (get_pokemon_by_type pokemon_type)).

(** The number of records whose weaknesses contain [w]. *)
Definition records_with (w : string) (records : list PokemonStats) : Z :=
  Z.of_nat (length (filter (λ r, w ∈ weaknesses r) records)).

(** All the weaknesses of the records, in the order in which the analysis
    meets them. *)
Definition weaknesses_met (records : list PokemonStats) : list string :=
  mjoin (weaknesses <$> records).

(** [(count / total) * 100] for a non-zero [total]. *)
Definition percentage (count total : Z) : float :=
  float_mul_int (SFdiv prec emax (float_of_int count) (float_of_int total)) 100.

(** The mode that [max] selects in a non-empty mapping. *)
Definition mode_of (weakness_percentages : list (string * float)) : option (string * float) :=
  match weakness_percentages with
  | [] => None
  | first :: rest => Some (max_from first rest)
  end.

(** [0 <= (count / total) * 100 <= 100] as a test on floats. *)
Definition percentage_in_range (count total : Z) : bool :=
  float_le (float_of_int 0) (percentage count total)
  && float_le (percentage count total) (float_of_int 100).

(** Orders on mapping items, by value. *)
Definition value_le (x y : string * float) : Prop := float_le x.2 y.2 = true.
Definition value_ge (x y : string * float) : Prop := float_le y.2 x.2 = true.

(** The items of a mapping whose value compares equal to [p]. *)
Definition ties (p : float) (items : list (string * float)) : list (string * float) :=
  filter (λ item, float_eq item.2 p = true) items.

(** ** Scenario data *)

(** A record with the given weaknesses and nothing else of interest. *)
Definition record_with_weaknesses (n : string) (ws : list string) : PokemonStats :=
  {| name := n; types := []; hp := 0; attack := 0; defense := 0;
     special_attack := 0; special_defense := 0; speed := 0;
     weaknesses := ws; resistances := [] |}.

(** A data source with two records: one weak to water and ground, one weak
    to water. *)
Definition scenario_names (pokemon_type : string) : list string := ["first"; "second"].

Definition scenario_source (pokemon_name : string) : option PokemonStats :=
  if decide (pokemon_name = "first")
  then Some (record_with_weaknesses "first" ["water"; "ground"])
  else if decide (pokemon_name = "second")
  then Some (record_with_weaknesses "second" ["water"])
  else None.

(** A data source whose only record has a type without a profile. *)
Definition shadow_names (pokemon_type : string) : option (list string) := Some ["lugia"].

Definition shadow_pokemon (pokemon_name : string) : option pokemon_json :=
  Some {| json_name := pokemon_name; json_types := ["shadow"]; json_stats := [("hp", 106)] |}.

(** A result in which two weaknesses tie. *)
Definition tied_result : analysis :=
  {| type := "fire";
     analyzed_pokemon_count := 2;
     weakness_percentages :=
       [("rock", float_of_int 50); ("water", float_of_int 100); ("ground", float_of_int 50)];
     most_common_weakness := Some ("water", float_of_int 100) |}.

(** A data source whose only record has the single type "fire". *)
Definition fire_names (pokemon_type : string) : option (list string) := Some ["charmander"].

Definition fire_pokemon (pokemon_name : string) : option pokemon_json :=
  Some {| json_name := pokemon_name; json_types := ["fire"]; json_stats := [("hp", 39)] |}.

(** ** Vocabulary for the further properties *)

(** The response [data] with another list of types. *)
Definition with_types (data : pokemon_json) (type_names : list string) : pokemon_json :=
  {| json_name := json_name data; json_types := type_names; json_stats := json_stats data |}.

(** The record has one or two types, each with a profile in [table]. *)
Definition known_types (table : gmap string type_entry) (data : pokemon_json) : Prop :=
  match json_types data with
  | [t] => is_Some (table !! t)
  | [t1; t2] => is_Some (table !! t1) ∧ is_Some (table !! t2)
  | _ => False
  end.

(** The responses behind the sample of a [PokemonAPI] object. *)
Definition sample_responses (http_pokemon : string → option pokemon_json)
    (http_type : string → option (list string)) (pokemon_type : string)
    : list pokemon_json :=
  omap (λ n, http_pokemon (lower n)) (take 10 (default [] (http_type (lower pokemon_type)))).

(** The six stat fields of a record and the keys they are read from. *)
Definition stat_fields : list (string * (PokemonStats → Z)) :=
  [("hp", hp); ("attack", attack); ("defense", defense);
   ("special_attack", special_attack); ("special_defense", special_defense);
   ("speed", speed)].

(** The key under which the parser stores a stat of the response. *)
Definition stat_key (stat : string * Z) : string := replace_char "-" "_" stat.1.

#[global] Instance float_eq_dec : EqDecision float.
Proof. solve_decision. Defined.

(** Among [total] records, a larger count gives a strictly larger
    percentage, and the full count gives 100.0: tests on floats. *)
Definition percentage_increases (count total : Z) : bool :=
  float_lt (percentage count total) (percentage (count + 1) total).

Definition percentage_full (total : Z) : bool :=
  bool_decide (percentage total total = float_of_int 100).

(** ** [create_research_plan] in [src/agents/research_agents.py] *)

(** [s.startswith(p)] *)
Fixpoint starts_with (p s : string) : bool :=
  match p, s with
  | EmptyString, _ => true
  | String _ _, EmptyString => false
  | String a p', String b s' => if decide (a = b) then starts_with p' s' else false
  end.

(** [needle in haystack] on two strings. *)
Fixpoint contains (needle haystack : string) : bool :=
  starts_with needle haystack
  || match haystack with
     | EmptyString => false
     | String _ rest => contains needle rest
     end.

(** The dictionary returned by [create_research_plan]. *)
Record research_plan : Type := {
  objective : string;
  data_requirements : list string;
  analysis_steps : list string;
  deliverables : list string;
  success_criteria : list string
}.

(** [ProfessorOakAgent.create_research_plan]; the prompt string that the
    method builds first is not used. *)
Definition create_research_plan (research_goal : string) : research_plan :=
  if contains "fire" (lower research_goal) && contains "weakness" (lower research_goal)
  then {| objective := "Analyze Fire-type Pokémon weaknesses and vulnerabilities";
          data_requirements :=
            ["Fetch list of all Fire-type Pokémon";
             "Get detailed stats for each Fire-type Pokémon";
             "Collect type effectiveness data";
             "Gather weakness/resistance information"];
          analysis_steps :=
            ["Calculate average stats for Fire-type Pokémon";
             "Identify most common weaknesses";
             "Analyze defensive capabilities";
             "Compare with other types"];
          deliverables :=
            ["Statistical summary report";
             "Weakness frequency chart";
             "Comparative analysis visualization";
             "Strategic recommendations"];
          success_criteria :=
            ["Complete data for at least 10 Fire-type Pokémon";
             "Clear identification of top 3 weaknesses";
             "Visual representations of findings";
             "Actionable strategic insights"] |}
  else {| objective := "Research and analyze: " +:+ research_goal;
          data_requirements := ["Collect relevant Pokémon data"];
          analysis_steps := ["Perform statistical analysis"];
          deliverables := ["Generate comprehensive report"];
          success_criteria := ["Complete analysis with insights"] |}.

(** ** [src/tools/visualizer.py] *)

(** The float literals [1.1] and [0.5]: the doubles nearest to 11/10 and 1/2. *)
Definition float_1_1 : float := SFdiv prec emax (float_of_int 11) (float_of_int 10).
Definition float_0_5 : float := SFdiv prec emax (float_of_int 1) (float_of_int 2).

Definition float_add (x y : float) : float := SFadd prec emax x y.

(** The scan of [max(values)] on floats. *)
Fixpoint max_float_from (best : float) (rest : list float) : float :=
  match rest with
  | [] => best
  | x :: rest' => if float_lt best x then max_float_from x rest' else max_float_from best rest'
  end.

(** [max(values)]; [ValueError] on an empty list. *)
Definition max_float (values : list float) : result float :=
  match values with
  | [] => Raise ValueError
  | first :: rest => Ok (max_float_from first rest)
  end.

(** What [plot_weakness_distribution] hands to the plotting library: the
    title and axis labels, the bars (label and height) from left to right,
    the upper limit of the y axis, the text above each bar with its height,
    and the path of the saved figure.  Colours are the library's. *)
Record weakness_chart : Type := {
  wc_title : string;
  wc_x_label : string;
  wc_y_label : string;
  wc_bar_labels : list string;
  wc_bar_heights : list float;
  wc_y_limit : float;
  wc_bar_texts : list (float * string);
  wc_saved_to : string
}.

(** The keys of an entry of ['pokemon_stats'] that the summary chart reads. *)
Record stats_entry : Type := {
  entry_name : option string;
  entry_attack : option Z
}.

(** The argument of [create_research_summary_chart]: the research data with
    its ['pokemon_stats'] key. *)
Record summary_data : Type := {
  summary_research : research_data;
  pokemon_stats : option (list stats_entry)
}.

(** What [create_research_summary_chart] plots: the bars of the two charts
    (labels and heights), when their data is present, and the saved path. *)
Record summary_chart : Type := {
  top_weaknesses : option (list string * list float);
  attack_comparison : option (list string * list Z);
  summary_saved_to : string
}.

(** [d[k]] raises [KeyError] on a missing key. *)
Definition dict_item {V : Type} (k : string) (d : list (string * V)) : option V :=
  dict_get k d.

Section visualizer.
(** [str(self.output_dir / name)] for a file name. *)
Context (in_output_dir : string → string).

(** [PokemonDataVisualizer.plot_weakness_distribution] *)
Definition plot_weakness_distribution (weakness_data : list (string * float))
    (pokemon_type : string) (save_path : option string) : result weakness_chart :=
  let sorted_weaknesses := sorted_by_value_reverse weakness_data in
  let weakness_types := (λ w : string * float, title w.1) <$> sorted_weaknesses in
  let percentages := (λ w : string * float, w.2) <$> sorted_weaknesses in
  top ← max_float percentages;
  Ok {| wc_title := title pokemon_type +:+ "-type Pokémon Weakness Distribution";
        wc_x_label := "Weakness Types";
        wc_y_label := "Percentage of Pokémon Affected (%)";
        wc_bar_labels := weakness_types;
        wc_bar_heights := percentages;
        wc_y_limit := float_mul top float_1_1;
        wc_bar_texts :=
          (λ percentage, (float_add percentage float_0_5, format_1f percentage +:+ "%"))
            <$> percentages;
        wc_saved_to :=
          match save_path with
          | None => in_output_dir (pokemon_type +:+ "_weakness_distribution.png")
          | Some path => path
          end |}.

(** [[weakness_data['weakness_percentages'][w] for w in weaknesses]];
    [None] stands for the [KeyError] of a missing key. *)
Fixpoint lookup_all (weakness_percentages : list (string * float))
    (keys : list string) : option (list float) :=
  match keys with
  | [] => Some []
  | w :: keys' =>
      percentage ← dict_item w weakness_percentages;
      rest ← lookup_all weakness_percentages keys';
      Some (percentage :: rest)
  end.

(** [PokemonDataVisualizer.create_research_summary_chart]; [None] stands for
    a [KeyError]. *)
Definition create_research_summary_chart (data : summary_data)
    (save_path : option string) : option summary_chart :=
  top ← match weakness_analysis (summary_research data) with
         | Some wd =>
             match wd_weakness_percentages wd with
             | Some weakness_percentages =>
                 let weaknesses := take 6 (weakness_percentages.*1) in
                 percentages ← lookup_all weakness_percentages weaknesses;
                 Some (Some (title <$> weaknesses, percentages))
             | None => Some None
             end
         | None => Some None
         end;
  let attack :=
    match pokemon_stats data with
    | Some stats =>
        let stats_data := take 3 stats in
        let pokemon_names :=
          imap (λ i p, default ("Pokemon " +:+ format_int (Z.of_nat i + 1)) (entry_name p))
            stats_data in
        let attack_stats := (λ p, default 0 (entry_attack p)) <$> stats_data in
        Some (pokemon_names, attack_stats)
    | None => None
    end in
  Some {| top_weaknesses := top;
          attack_comparison := attack;
          summary_saved_to :=
            match save_path with
            | None => in_output_dir "research_summary.png"
            | Some path => path
            end |}.

End visualizer.

(** ** [examples/fire_type_analysis.py] *)

(** What the script does to the outside: lines written by [print] (the text
    of one call, without the final newline) and files written. *)
Inductive event : Type :=
| Print (text : string)
| WriteFile (path content : string).

(** The exceptions that can end the script. *)
Inductive py_error : Type :=
| Builtin (e : exn)
| KeyError
| TypeError
| AttributeError
| UnboundLocalError (variable : string).

(** A run of the script: the events so far, and an exception or a value. *)
Definition script (A : Type) : Type := list event * (py_error + A).

#[global] Instance script_ret : MRet script := λ A a, ([], inr a).
#[global] Instance script_bind : MBind script := λ A B f m,
  match m.2 with
  | inl e => (m.1, inl e)
  | inr a => let r := f a in (m.1 ++ r.1, r.2)
  end.

Definition print (text : string) : script unit := ([Print text], inr tt).
Definition write_file (path content : string) : script unit :=
  ([WriteFile path content], inr tt).
Definition raise {A : Type} (e : py_error) : script A := ([], inl e).

Definition of_result {A : Type} (r : result A) : script A :=
  match r with
  | Ok a => mret a
  | Raise e => raise (Builtin e)
  end.

(** Reading a local variable that may not have been assigned. *)
Definition read_local {A : Type} (variable : string) (value : option A) : script A :=
  match value with
  | Some a => mret a
  | None => raise (UnboundLocalError variable)
  end.

(** [for x in xs: body(x)] *)
Fixpoint for_each {A : Type} (body : A → script unit) (xs : list A) : script unit :=
  match xs with
  | [] => mret tt
  | x :: xs' => body x;; for_each body xs'
  end.

(** [s * n] on a string. *)
Fixpoint string_repeat (s : string) (n : nat) : string :=
  match n with
  | O => EmptyString
  | S n' => s +:+ string_repeat s n'
  end.

Definition newline : string := String "010" EmptyString.

(** The dictionary returned by [fire_type_weakness_analysis]; the three
    chart paths are its ['visualizations'] entry. *)
Record workflow_result : Type := {
  wr_analysis_results : analysis;
  wr_pokemon_data : list PokemonStats;
  wr_weakness_chart : string;
  wr_stats_chart : string;
  wr_summary_chart : string;
  wr_report_path : string;
  wr_data_csv : string
}.

(** The entry of ['pokemon_stats'] for a dictionary built from a record: the
    dictionary has the ten fields of the record under their names. *)
Definition stats_entry_of (pokemon : PokemonStats) : stats_entry :=
  {| entry_name := Some (name pokemon); entry_attack := Some (attack pokemon) |}.

Section example.
(** The interpreter and the network behind [PokemonAPI()]. *)
Context (order : SetOrder).
Context (http_pokemon : string → option pokemon_json).
Context (http_type : string → option (list string)).
Context (type_status : option Z).
(** [str(self.output_dir / name)], and the two methods of the visualizer
    that go through pandas, which return the path they saved to. *)
Context (in_output_dir : string → string).
Context (plot_stats_comparison : list PokemonStats → string → string).
Context (save_data_to_csv : list PokemonStats → string → string).
(** [str(Path("data/visualizations/fire_type_research_report.md"))] *)
Context (report_path : string).

(** The loop [for name in fire_pokemon_names]. *)
Fixpoint collect_pokemon (names : list string) (fire_pokemon_data : list PokemonStats)
    : script (list PokemonStats) :=
  match names with
  | [] => mret fire_pokemon_data
  | pokemon_name :: names' =>
      print ("Analyzing " +:+ title pokemon_name +:+ "...");;
      match get_pokemon_by_name order (_load_type_effectiveness type_status)
              http_pokemon pokemon_name with
      | Some pokemon_data => collect_pokemon names' (fire_pokemon_data ++ [pokemon_data])
      | None => collect_pokemon names' fire_pokemon_data
      end
  end.

(** [fire_type_weakness_analysis] *)
Definition fire_type_weakness_analysis : script workflow_result :=
  print "🔥 Starting Fire-type Pokémon Weakness Analysis";;
  print (string_repeat "=" 50);;
  print (newline +:+ "📋 Phase 1: Research Planning");;
  print (string_repeat "-" 30);;
  let research_goal := "analyze all Fire-type Pokémon weaknesses" in
  let research_plan := create_research_plan research_goal in
  print ("Research Objective: " +:+ objective research_plan);;
  print "Data Requirements:";;
  for_each (λ requirement, print ("  • " +:+ requirement))
    (data_requirements research_plan);;
  print (newline +:+ "🔬 Phase 2: Data Collection & Analysis");;
  print (string_repeat "-" 30);;
  print "Collecting Fire-type Pokémon data...";;
  fire_type_analysis ←
    of_result (api_analyze_type_weaknesses order (_load_type_effectiveness type_status)
                 http_pokemon http_type "fire");
  fire_pokemon_data ←
    collect_pokemon ["charmander"; "vulpix"; "growlithe"; "ponyta"; "magmar"] [];
  let count := Z.of_nat (length fire_pokemon_data) in
  print ("Successfully collected data for " +:+ format_int count +:+ " Fire-type Pokémon");;
  print (newline +:+ "📊 Phase 3: Visualization");;
  print (string_repeat "-" 30);;
  print "Generating weakness distribution chart...";;
  weakness_chart_path ←
    match weakness_percentages fire_type_analysis with
    | [] => mret None
    | _ :: _ =>
        chart ← of_result (plot_weakness_distribution in_output_dir
                             (weakness_percentages fire_type_analysis) "Fire" None);
        print ("Weakness chart saved to: " +:+ wc_saved_to chart);;
        mret (Some (wc_saved_to chart))
    end;
  print "Generating stats comparison chart...";;
  stats_chart_path ←
    match fire_pokemon_data with
    | [] => mret None
    | _ :: _ =>
        let path := plot_stats_comparison fire_pokemon_data
                      "Fire-type Pokémon Stats Comparison" in
        print ("Stats chart saved to: " +:+ path);;
        mret (Some path)
    end;
  print "Generating research summary chart...";;
  let research := {| weakness_analysis := Some (weakness_data_of fire_type_analysis) |} in
  summary ←
    match create_research_summary_chart in_output_dir
            {| summary_research := research;
               pokemon_stats := Some (stats_entry_of <$> fire_pokemon_data) |} None with
    | Some chart => mret chart
    | None => raise KeyError
    end;
  print ("Summary chart saved to: " +:+ summary_saved_to summary);;
  let csv_path := save_data_to_csv fire_pokemon_data "fire_pokemon_analysis" in
  print ("Raw data saved to: " +:+ csv_path);;
  print (newline +:+ "📝 Phase 4: Report Generation");;
  print (string_repeat "-" 30);;
  print "Generating comprehensive research report...";;
  let research_report := generate_report research in
  write_file report_path research_report;;
  print ("Research report saved to: " +:+ report_path);;
  print (newline +:+ "✅ Analysis Complete!");;
  print (string_repeat "=" 50);;
  print (newline +:+ "🎯 Key Findings Summary:");;
  match most_common_weakness fire_type_analysis with
  | Some (weakness_type, percentage) =>
      print ("• Most common weakness: " +:+ title weakness_type +:+ " (" +:+
             format_1f percentage +:+ "%)")
  | None => mret tt
  end;;
  print ("• Total Pokémon analyzed: " +:+ format_int count);;
  average_hp ← of_result (int_truediv (foldr Z.add 0 (hp <$> fire_pokemon_data)) count);
  print ("• Average HP: " +:+ format_1f average_hp);;
  average_attack ←
    of_result (int_truediv (foldr Z.add 0 (attack <$> fire_pokemon_data)) count);
  print ("• Average Attack: " +:+ format_1f average_attack);;
  print (newline +:+ "📁 Generated Files:");;
  weakness_path ← read_local "weakness_chart_path" weakness_chart_path;
  print ("• Weakness Chart: " +:+ weakness_path);;
  stats_path ← read_local "stats_chart_path" stats_chart_path;
  print ("• Stats Chart: " +:+ stats_path);;
  print ("• Summary Chart: " +:+ summary_saved_to summary);;
  print ("• Data CSV: " +:+ csv_path);;
  print ("• Research Report: " +:+ report_path);;
  mret {| wr_analysis_results := fire_type_analysis;
          wr_pokemon_data := fire_pokemon_data;
          wr_weakness_chart := weakness_path;
          wr_stats_chart := stats_path;
          wr_summary_chart := summary_saved_to summary;
          wr_report_path := report_path;
          wr_data_csv := csv_path |}.

End example.

(** The exception or value that ends a run, and the files it wrote. *)
Definition outcome {A : Type} (run : script A) : py_error + A := run.2.

Definition writes {A : Type} (run : script A) : list (string * string) :=
  omap (λ e, match e with
             | WriteFile path content => Some (path, content)
             | Print _ => None
             end) run.1.

(** The names that the example looks up. *)
Definition example_names : list string :=
  ["charmander"; "vulpix"; "growlithe"; "ponyta"; "magmar"].

(** ** [src/tools/pokemon_api.py] over the JSON documents

    The definitions above read a response through its typed projection.  The
    module [Raw] is the same code over what [requests] hands it: a call to
    [session.get] that may raise [requests.RequestException], a status code,
    and a body that [response.json()] decodes to an arbitrary JSON value.
    Subscripting and iterating such a value can raise, a failed request
    prints a line; both are effects of the [script] monad. *)

Module Raw.

(** A value returned by [response.json()]; the items of a [JDict] are those
    of the [dict], in insertion order and with distinct keys. *)
#[local] Unset Elimination Schemes.
Inductive value : Type :=
| JNull
| JBool (b : bool)
| JInt (n : Z)
| JFloat (x : float)
| JStr (s : string)
| JList (items : list value)
| JDict (items : list (string * value)).
#[local] Set Elimination Schemes.

(** What [response.json()] does: it returns the decoded body, or raises
    [requests.exceptions.JSONDecodeError], which is a [RequestException]
    (since requests 2.27). *)
Inductive content : Type :=
| Json (data : value)
| InvalidJSON (message : string).

(** What [session.get(url)] does: it raises a [RequestException], or returns
    a response. *)
Inductive reply : Type :=
| RequestException (message : string)
| Response (status_code : Z) (json : content).

(** [v[key]] for a [str] key: only a [dict] can be subscripted with it. *)
Definition subscript (v : value) (key : string) : script value :=
  match v with
  | JDict items =>
      match dict_get key items with
      | Some x => mret x
      | None => raise KeyError
      end
  | _ => raise TypeError
  end.

(** The characters of a [str], each a [str] of length one. *)
Fixpoint characters (s : string) : list value :=
  match s with
  | EmptyString => []
  | String c r => JStr (String c EmptyString) :: characters r
  end.

(** The elements that [for x in v] visits: the items of a [list], the keys of
    a [dict], the characters of a [str]; nothing else is iterable. *)
Definition iterate (v : value) : script (list value) :=
  match v with
  | JList items => mret items
  | JDict items => mret (JStr <$> items.*1)
  | JStr s => mret (characters s)
  | _ => raise TypeError
  end.

(** [v.replace('-', '_')]: only a [str] has the method. *)
Definition replace (v : value) : script string :=
  match v with
  | JStr s => mret (replace_char "-" "_" s)
  | _ => raise AttributeError
  end.

(** [[f(x) for x in xs]] *)
Fixpoint comprehension {A B : Type} (f : A → script B) (xs : list A) : script (list B) :=
  match xs with
  | [] => mret []
  | x :: xs' => y ← f x; ys ← comprehension f xs'; mret (y :: ys)
  end.

(** [for x in xs: st = body(st, x)] *)
Fixpoint for_fold {A S : Type} (body : S → A → script S) (xs : list A) (st : S) : script S :=
  match xs with
  | [] => mret st
  | x :: xs' => st' ← body st x; for_fold body xs' st'
  end.

(** The dataclass [PokemonStats]; its fields are not checked against their
    annotations, so they hold whatever the body has. *)
Record PokemonStats : Type := {
  name : value;
  types : list value;
  hp : value;
  attack : value;
  defense : value;
  special_attack : value;
  special_defense : value;
  speed : value;
  weaknesses : list string;
  resistances : list string
}.

Definition BASE_URL : string := "https://pokeapi.co/api/v2".

Section api.
Context (order : SetOrder) (type_effectiveness : gmap string type_entry).
Context (session_get : string → reply).

(** The body of the loop [for stat in data['stats']]. *)
Definition stat_step (stats : gmap string value) (stat : value)
    : script (gmap string value) :=
  stat_name ← (inner ← subscript stat "stat"; n ← subscript inner "name"; replace n);
  base_stat ← subscript stat "base_stat";
  mret (<[stat_name := base_stat]> stats).

(** The body of the loop [for ptype in types]: [ptype in self.type_effectiveness]
    hashes [ptype], which a [list] or a [dict] refuses; a value that is not a
    [str] is not a key of the chart, and on a [str] the step is the
    [resolve_step] above. *)
Definition resolve_step (acc : py_set * py_set) (ptype : value) : script (py_set * py_set) :=
  match ptype with
  | JStr s => mret (resolve_step type_effectiveness acc s)
  | JList _ | JDict _ => raise TypeError
  | _ => mret acc
  end.

(** [PokemonAPI._parse_pokemon_data] *)
Definition _parse_pokemon_data (data : value) : script PokemonStats :=
  name ← subscript data "name";
  types ← (entries ← subscript data "types";
           entries ← iterate entries;
           comprehension (λ t, inner ← subscript t "type"; subscript inner "name") entries);
  stats ← (entries ← subscript data "stats";
           entries ← iterate entries;
           for_fold stat_step entries ∅);
  sets ← for_fold resolve_step types (set_new, set_new);
  mret {| name := name;
          types := types;
          hp := default (JInt 0) (stats !! "hp");
          attack := default (JInt 0) (stats !! "attack");
          defense := default (JInt 0) (stats !! "defense");
          special_attack := default (JInt 0) (stats !! "special_attack");
          special_defense := default (JInt 0) (stats !! "special_defense");
          speed := default (JInt 0) (stats !! "speed");
          weaknesses := py_list order (set_sub sets.1 sets.2);
          resistances := py_list order sets.2 |}.

(** [PokemonAPI.get_pokemon_by_name]; [name.lower()] needs a [str]. *)
Definition get_pokemon_by_name (name : value) : script (option PokemonStats) :=
  match name with
  | JStr s =>
      match session_get (BASE_URL +:+ "/pokemon/" +:+ lower s) with
      | Response status_code json =>
          if decide (status_code = 200) then
            match json with
            | Json data => pokemon ← _parse_pokemon_data data; mret (Some pokemon)
            | InvalidJSON e =>
                print ("Error fetching Pokémon " +:+ s +:+ ": " +:+ e);; mret None
            end
          else mret None
      | RequestException e =>
          print ("Error fetching Pokémon " +:+ s +:+ ": " +:+ e);; mret None
      end
  | _ => raise AttributeError
  end.

(** [PokemonAPI.get_pokemon_by_type] *)
Definition get_pokemon_by_type (pokemon_type : string) : script (list value) :=
  match session_get (BASE_URL +:+ "/type/" +:+ lower pokemon_type) with
  | Response status_code json =>
      if decide (status_code = 200) then
        match json with
        | Json data =>
            entries ← subscript data "pokemon";
            entries ← iterate entries;
            comprehension (λ pokemon, inner ← subscript pokemon "pokemon";
                                      subscript inner "name") entries
        | InvalidJSON e =>
            print ("Error fetching type " +:+ pokemon_type +:+ ": " +:+ e);; mret []
        end
      else mret []
  | RequestException e =>
      print ("Error fetching type " +:+ pokemon_type +:+ ": " +:+ e);; mret []
  end.

(** The body of the loop [for name in sample_pokemon]; the state is
    [(weakness_count, total_pokemon)]. *)
Definition sample_step (st : list (string * Z) * Z) (pokemon_name : value)
    : script (list (string * Z) * Z) :=
  pokemon ← get_pokemon_by_name pokemon_name;
  match pokemon with
  | Some pokemon => mret (foldl count_weakness st.1 (weaknesses pokemon), st.2 + 1)
  | None => mret st
  end.

(** [PokemonAPI.analyze_type_weaknesses] *)
Definition analyze_type_weaknesses (pokemon_type : string) : script analysis :=
  pokemon_names ← get_pokemon_by_type pokemon_type;
  let sample_size := Nat.min 10 (length pokemon_names) in
  let sample_pokemon := take sample_size pokemon_names in
  st ← for_fold sample_step sample_pokemon ([], 0);
  let weakness_count := st.1 in
  let total_pokemon := st.2 in
  weakness_percentages ← of_result (percentages_loop weakness_count total_pokemon []);
  most_common ← match weakness_percentages with
                 | [] => mret None
                 | _ :: _ => item ← of_result (max_by_value weakness_percentages);
                             mret (Some item)
                 end;
  mret {| type := pokemon_type;
          analyzed_pokemon_count := total_pokemon;
          weakness_percentages := weakness_percentages;
          most_common_weakness := most_common |}.

End api.

(** *** The typed projection of a body *)

Definition field (key : string) (v : value) : option value :=
  match v with
  | JDict items => dict_get key items
  | _ => None
  end.

Definition as_str (v : value) : option string :=
  match v with
  | JStr s => Some s
  | _ => None
  end.

Definition as_int (v : value) : option Z :=
  match v with
  | JInt n => Some n
  | _ => None
  end.

Definition as_list (v : value) : option (list value) :=
  match v with
  | JList items => Some items
  | _ => None
  end.

(** The name in a [{'type': {'name': ...}}] entry (in a
    [{'pokemon': {'name': ...}}] entry for [key = "pokemon"]). *)
Definition entry_name (key : string) (entry : value) : option string :=
  inner ← field key entry; n ← field "name" inner; as_str n.

(** The pair in a [{'base_stat': ..., 'stat': {'name': ...}}] entry. *)
Definition stat_entry (stat : value) : option (string * Z) :=
  inner ← field "stat" stat; n ← field "name" inner; stat_name ← as_str n;
  base ← field "base_stat" stat; base_stat ← as_int base;
  Some (stat_name, base_stat).

(** A [/pokemon/<name>] body of the shape that PokéAPI documents, as the
    typed response that the definitions above work on; [None] for a body of
    any other shape. *)
Definition typed_pokemon (data : value) : option pokemon_json :=
  n ← field "name" data; pokemon_name ← as_str n;
  ts ← field "types" data; ts ← as_list ts; type_names ← mapM (entry_name "type") ts;
  ss ← field "stats" data; ss ← as_list ss; stats ← mapM stat_entry ss;
  Some {| json_name := pokemon_name; json_types := type_names; json_stats := stats |}.

(** A [/type/<name>] body of the documented shape, as its list of names. *)
Definition typed_names (data : value) : option (list string) :=
  ps ← field "pokemon" data; ps ← as_list ps; mapM (entry_name "pokemon") ps.

(** The body that the code decodes: the status is 200 and the JSON valid. *)
Definition decoded (r : reply) : option value :=
  match r with
  | Response status_code (Json data) => if decide (status_code = 200) then Some data else None
  | _ => None
  end.

(** A reply is absent (a failed request, another status, invalid JSON) or
    has a body of the documented shape. *)
Definition absent_or_typed {A : Type} (project : value → option A) (r : reply) : Prop :=
  match decoded r with
  | Some data => is_Some (project data)
  | None => True
  end.

(** The two typed endpoints behind a session. *)
Definition http_pokemon (session_get : string → reply) (lowered_name : string)
    : option pokemon_json :=
  data ← decoded (session_get (BASE_URL +:+ "/pokemon/" +:+ lowered_name));
  typed_pokemon data.

Definition http_type (session_get : string → reply) (lowered_type : string)
    : option (list string) :=
  data ← decoded (session_get (BASE_URL +:+ "/type/" +:+ lowered_type));
  typed_names data.

End Raw.

(** A record of the typed code, as the object that the code builds. *)
Definition raw_record (pokemon : PokemonStats) : Raw.PokemonStats :=
  {| Raw.name := Raw.JStr (name pokemon);
     Raw.types := Raw.JStr <$> types pokemon;
     Raw.hp := Raw.JInt (hp pokemon);
     Raw.attack := Raw.JInt (attack pokemon);
     Raw.defense := Raw.JInt (defense pokemon);
     Raw.special_attack := Raw.JInt (special_attack pokemon);
     Raw.special_defense := Raw.JInt (special_defense pokemon);
     Raw.speed := Raw.JInt (speed pokemon);
     Raw.weaknesses := weaknesses pokemon;
     Raw.resistances := resistances pokemon |}.

(** The exceptions that a body of an unexpected shape raises. *)
Definition shape_error (e : py_error) : Prop :=
  e = KeyError ∨ e = TypeError ∨ e = AttributeError.

(** A script that can only end with an exception of [shape_error]. *)
Definition shape_errors_only {A : Type} (m : script A) : Prop :=
  ∀ e, outcome m = inl e → shape_error e.

(** A script that prints nothing and writes no file. *)
Definition quiet {A : Type} (m : script A) : Prop := m.1 = [].

(** A session whose listing for "fire" names charmander, and whose body for
    charmander has no ['name']. *)
Definition nameless_session (url : string) : Raw.reply :=
  if decide (url = "https://pokeapi.co/api/v2/type/fire") then
    Raw.Response 200
      (Raw.Json (Raw.JDict
         [("pokemon", Raw.JList
             [Raw.JDict [("pokemon", Raw.JDict [("name", Raw.JStr "charmander")]);
                         ("slot", Raw.JInt 1)]])]))
  else if decide (url = "https://pokeapi.co/api/v2/pokemon/charmander") then
    Raw.Response 200
      (Raw.Json (Raw.JDict
         [("id", Raw.JInt 4);
          ("types", Raw.JList
             [Raw.JDict [("slot", Raw.JInt 1);
                         ("type", Raw.JDict [("name", Raw.JStr "fire")])]]);
          ("stats", Raw.JList
             [Raw.JDict [("base_stat", Raw.JInt 39);
                         ("stat", Raw.JDict [("name", Raw.JStr "hp")])]])]))
  else Raw.Response 404 (Raw.InvalidJSON "Expecting value").

(** The same session with the name in the body, and a failing request for
    vulpix. *)
Definition charmander_session (url : string) : Raw.reply :=
  if decide (url = "https://pokeapi.co/api/v2/type/fire") then
    Raw.Response 200
      (Raw.Json (Raw.JDict
         [("pokemon", Raw.JList
             [Raw.JDict [("pokemon", Raw.JDict [("name", Raw.JStr "charmander")]);
                         ("slot", Raw.JInt 1)];
              Raw.JDict [("pokemon", Raw.JDict [("name", Raw.JStr "vulpix")]);
                         ("slot", Raw.JInt 1)]])]))
  else if decide (url = "https://pokeapi.co/api/v2/pokemon/charmander") then
    Raw.Response 200
      (Raw.Json (Raw.JDict
         [("id", Raw.JInt 4);
          ("name", Raw.JStr "charmander");
          ("types", Raw.JList
             [Raw.JDict [("slot", Raw.JInt 1);
                         ("type", Raw.JDict [("name", Raw.JStr "fire")])]]);
          ("stats", Raw.JList
             [Raw.JDict [("base_stat", Raw.JInt 39);
                         ("stat", Raw.JDict [("name", Raw.JStr "hp")])]])]))
  else if decide (url = "https://pokeapi.co/api/v2/pokemon/vulpix") then
    Raw.RequestException "Connection refused"
  else Raw.Response 404 (Raw.InvalidJSON "Expecting value").

(** * Properties *)

(** ** The resolver *)

Lemma load_type_effectiveness_chart (response_status : option Z) :
  _load_type_effectiveness response_status = _get_simplified_type_chart.
Proof. destruct response_status as [status_code|]; simpl; [by case_decide|done]. Qed.

Lemma list_to_set_py_list (order : SetOrder) (s : py_set) :
  list_to_set (py_list order s) = contents s.
Proof.
  apply set_eq. intros x.
  rewrite elem_of_list_to_set, (py_list_perm order s).
  apply elem_of_elements.
Qed.

Lemma NoDup_py_list (order : SetOrder) (s : py_set) : NoDup (py_list order s).
Proof. rewrite (py_list_perm order s). apply NoDup_elements. Qed.

Lemma elem_of_py_list (order : SetOrder) (s : py_set) (x : string) :
  x ∈ py_list order s ↔ x ∈ contents s.
Proof. rewrite (py_list_perm order s). apply elem_of_elements. Qed.

(** The code's loop and the reference loop build the same two sets. *)
Lemma resolve_step_contents table (type_names : list string) (acc : py_set * py_set)
    (racc : gset string * gset string) :
  contents acc.1 = racc.1 → contents acc.2 = racc.2 →
  let sets := foldl (resolve_step table) acc type_names in
  let rsets := foldl (reference_step table) racc type_names in
  contents sets.1 = rsets.1 ∧ contents sets.2 = rsets.2.
Proof.
  revert acc racc. induction type_names as [|t ts IH]; intros acc racc H1 H2; simpl.
  - done.
  - apply IH; unfold resolve_step, reference_step;
      destruct (table !! t) as [entry|]; simpl; congruence.
Qed.

Lemma parse_weaknesses_contents order table data :
  list_to_set (weaknesses (_parse_pokemon_data order table data))
  = (resolve_reference (json_types data) table).1.
Proof.
  unfold _parse_pokemon_data, resolve_reference. simpl.
  rewrite list_to_set_py_list. simpl.
  destruct (resolve_step_contents table (json_types data) (set_new, set_new) (∅, ∅))
    as [-> ->]; done.
Qed.

Lemma parse_resistances_contents order table data :
  list_to_set (resistances (_parse_pokemon_data order table data))
  = (resolve_reference (json_types data) table).2.
Proof.
  unfold _parse_pokemon_data, resolve_reference. simpl.
  rewrite list_to_set_py_list.
  destruct (resolve_step_contents table (json_types data) (set_new, set_new) (∅, ∅))
    as [_ ->]; done.
Qed.

(** Types without a profile do not change the reference loop. *)
Lemma reference_skip_unknown table (type_names : list string) racc :
  foldl (reference_step table) racc type_names
  = foldl (reference_step table) racc (filter (λ t, is_Some (table !! t)) type_names).
Proof.
  revert racc. induction type_names as [|t ts IH]; intros racc; [done|].
  rewrite filter_cons. destruct (decide (is_Some (table !! t))) as [Hs|Hn]; simpl.
  - apply IH.
  - rewrite IH. f_equal. unfold reference_step.
    destruct (table !! t) eqn:E; [|done]. exfalso. apply Hn. by eexists.
Qed.

(** C1. For every type list resolved against any table, no type name is both
    in the stored weakness list and in the stored resistance list: the two
    sets of every record built by [_parse_pokemon_data] are disjoint. *)
Theorem weaknesses_resistances_disjoint (order : SetOrder)
    (table : gmap string type_entry) (data : pokemon_json) :
  let record := _parse_pokemon_data order table data in
  (list_to_set (weaknesses record) ∩ list_to_set (resistances record) : gset string) = ∅
  ∧ ∀ x, x ∈ weaknesses record → x ∉ resistances record.
Proof.
  cbv zeta. split.
  - rewrite parse_weaknesses_contents, parse_resistances_contents.
    unfold resolve_reference. simpl. set_solver.
  - unfold _parse_pokemon_data. simpl. intros x.
    rewrite !elem_of_py_list. simpl. set_solver.
Qed.

(** C2. The sets stored by [_parse_pokemon_data] are those of the reference
    resolver; the stored lists have no duplicates; types absent from the
    table are skipped, the function being total; an empty type sequence
    gives two empty sets. *)
Theorem resolve_refines_reference (order : SetOrder)
    (table : gmap string type_entry) (data : pokemon_json) :
  let record := _parse_pokemon_data order table data in
  (list_to_set (weaknesses record), list_to_set (resistances record))
    = resolve_reference (json_types data) table
  ∧ NoDup (weaknesses record) ∧ NoDup (resistances record)
  ∧ resolve_reference (json_types data) table
    = resolve_reference (filter (λ t, is_Some (table !! t)) (json_types data)) table
  ∧ (∀ n stats,
       let empty := _parse_pokemon_data order table
                      {| json_name := n; json_types := []; json_stats := stats |} in
       weaknesses empty = [] ∧ resistances empty = []).
Proof.
  cbv zeta. split; [|split; [|split; [|split]]].
  - rewrite parse_weaknesses_contents, parse_resistances_contents.
    by destruct (resolve_reference (json_types data) table).
  - apply NoDup_py_list.
  - apply NoDup_py_list.
  - unfold resolve_reference. by rewrite <- reference_skip_unknown.
  - intros n stats. unfold _parse_pokemon_data. simpl.
    split; apply Permutation_nil_r; rewrite py_list_perm; simpl.
    + by rewrite difference_diag_L, elements_empty.
    + by rewrite elements_empty.
Qed.

(** C8. On the static chart, the single type "fire" resolves to the
    weaknesses {water, ground, rock} and the resistances {fire, grass, ice,
    bug, steel, fairy}, whatever the rest of the record. *)
Theorem fire_resolved_alone (order : SetOrder) (n : string) (stats : list (string * Z)) :
  let record := _parse_pokemon_data order _get_simplified_type_chart
                  {| json_name := n; json_types := ["fire"]; json_stats := stats |} in
  list_to_set (weaknesses record) = ({[ "water"; "ground"; "rock" ]} : gset string)
  ∧ list_to_set (resistances record)
    = ({[ "fire"; "grass"; "ice"; "bug"; "steel"; "fairy" ]} : gset string).
Proof.
  cbv zeta. rewrite parse_weaknesses_contents, parse_resistances_contents. simpl json_types.
  split; compute_done.
Qed.

(** ** The order on floats *)

(** Case analysis on the comparison of two finite floats of equal sign. *)
Ltac compare_finite ex ey mx my :=
  destruct (Z.compare_spec ex ey); simpl;
    [change (Pos.compare_cont Eq mx my) with (mx ?= my)%positive;
     destruct (Pos.compare_spec mx my); simpl | |].

Lemma float_lt_key (x y : float) :
  float_lt x y = true ↔ is_nan x = false ∧ is_nan y = false ∧ key_lt (float_key x) (float_key y).
Proof.
  unfold float_lt, SFltb, key_lt.
  destruct x as [sx|sx| |sx mx ex], y as [sy|sy| |sy my ey]; simpl;
    try destruct sx; try destruct sy; simpl;
    try (split; [discriminate | intros (? & ? & ?); (discriminate || lia)]);
    try (split; [intros _; repeat split; lia | done]);
    compare_finite ex ey mx my;
    (split; [discriminate || (intros _; repeat split; lia)
            | intros (? & ? & ?); (done || lia)]).
Qed.

Lemma float_eq_key (x y : float) :
  float_eq x y = true ↔ is_nan x = false ∧ is_nan y = false ∧ float_key x = float_key y.
Proof.
  unfold float_eq, SFeqb.
  destruct x as [sx|sx| |sx mx ex], y as [sy|sy| |sy my ey]; simpl;
    try destruct sx; try destruct sy; simpl;
    try (split; [discriminate | intros (? & ? & ?); (discriminate || congruence)]);
    try (split; [intros _; repeat split; congruence | done]);
    compare_finite ex ey mx my;
    (split; [discriminate || (intros _; repeat split; congruence)
            | intros (? & ? & [= ]); (done || lia)]).
Qed.

Lemma float_lt_trans (x y z : float) :
  float_lt x y = true → float_lt y z = true → float_lt x z = true.
Proof.
  rewrite !float_lt_key. unfold key_lt.
  intros (? & ? & ?) (? & ? & ?). repeat split; [done..|lia].
Qed.

Lemma float_lt_asym (x y : float) : float_lt x y = true → float_lt y x = false.
Proof.
  intros H. apply not_true_is_false. revert H.
  rewrite !float_lt_key. unfold key_lt. intros (? & ? & ?) (? & ? & ?). lia.
Qed.

(** On floats that are not NaN, "not smaller" is transitive. *)
Lemma float_lt_cotrans (x y z : float) :
  is_nan y = false → float_lt x z = true → float_lt x y = true ∨ float_lt y z = true.
Proof.
  intros Hy. rewrite !float_lt_key. unfold key_lt. intros (? & ? & ?).
  destruct (decide (key_lt (float_key x) (float_key y))) as [Hl|Hl].
  - left. done.
  - right. repeat split; [done..|]. unfold key_lt in *. lia.
Qed.

Lemma float_eq_not_lt (x y p : float) :
  float_eq x p = true → float_eq y p = true → float_lt x y = false.
Proof.
  rewrite !float_eq_key. intros (? & ? & Hx) (? & ? & Hy).
  apply not_true_is_false. rewrite float_lt_key. unfold key_lt.
  rewrite Hx, Hy. intros (? & ? & ?). lia.
Qed.

(** ** Insertion-ordered dictionaries *)

Section dict_facts.
Context {V : Type}.
Implicit Types (d : list (string * V)) (k : string) (v : V).

Lemma dict_get_None k d : dict_get k d = None ↔ k ∉ d.*1.
Proof.
  induction d as [|[k' v'] d IH]; simpl.
  - split; [intros _; apply not_elem_of_nil | done].
  - rewrite not_elem_of_cons. case_decide; [|tauto]. split; [done|]. tauto.
Qed.

Lemma dict_get_Some_elem k v d : NoDup d.*1 → dict_get k d = Some v ↔ (k, v) ∈ d.
Proof.
  induction d as [|[k' v'] d IH]; simpl; intros Hnd.
  - split; [done|]. by intros ?%elem_of_nil.
  - apply NoDup_cons in Hnd as [Hk' Hnd]. rewrite elem_of_cons.
    case_decide as Hk; subst.
    + split; [intros [= ->]; by left|]. intros [[= ->]|Hin]; [done|].
      exfalso. apply Hk'. apply (list_elem_of_fmap_2 fst) in Hin. done.
    + rewrite (IH Hnd). split; [tauto|]. intros [[= ? ?]|?]; [done|tauto].
Qed.

Lemma dict_set_new k v d : k ∉ d.*1 → dict_set k v d = d ++ [(k, v)].
Proof.
  induction d as [|[k' v'] d IH]; simpl; [done|].
  rewrite not_elem_of_cons. intros [Hne Hnot].
  case_decide; [done|]. by rewrite IH.
Qed.

Lemma dict_set_keys k v d :
  (dict_set k v d).*1 = if decide (k ∈ d.*1) then d.*1 else d.*1 ++ [k].
Proof.
  induction d as [|[k' v'] d IH]; csimpl.
  - done.
  - destruct (decide (k = k')) as [->|Hk]; csimpl.
    + destruct (decide (k' ∈ k' :: d.*1)) as [|Hin]; [done|]. set_solver.
    + rewrite IH. repeat case_decide; try done; set_solver.
Qed.

Lemma dict_get_set k k' v d :
  dict_get k' (dict_set k v d) = if decide (k' = k) then Some v else dict_get k' d.
Proof.
  induction d as [|[k0 v0] d IH]; simpl.
  - done.
  - destruct (decide (k = k0)) as [->|Hk]; simpl.
    + repeat case_decide; congruence.
    + rewrite IH. repeat case_decide; congruence.
Qed.

End dict_facts.

(** ** The weakness counter *)

Lemma filter_all {A : Type} (P : A → Prop) `{∀ x, Decision (P x)} (l : list A) :
  (∀ x, x ∈ l → P x) → filter P l = l.
Proof.
  induction l as [|a l IH]; intros HP; [done|].
  rewrite filter_cons_True by (apply HP; left).
  f_equal. apply IH. intros x Hx. apply HP. by right.
Qed.

Lemma elem_of_first_seen (x : string) (ws : list string) : x ∈ first_seen ws ↔ x ∈ ws.
Proof.
  induction ws as [|w ws IH]; simpl; [done|].
  rewrite !elem_of_cons, list_elem_of_filter, IH.
  destruct (decide (x = w)); naive_solver.
Qed.

Lemma NoDup_first_seen (ws : list string) : NoDup (first_seen ws).
Proof.
  induction ws as [|w ws IH]; simpl; [constructor|].
  apply NoDup_cons. split.
  - rewrite list_elem_of_filter. naive_solver.
  - by apply NoDup_filter.
Qed.

Lemma occurrences_cons (w x : string) (ws : list string) :
  occurrences w (x :: ws) = (if decide (x = w) then 1 else 0) + occurrences w ws.
Proof.
  unfold occurrences. rewrite filter_cons. case_decide; simpl; lia.
Qed.

Lemma occurrences_app (w : string) (ws1 ws2 : list string) :
  occurrences w (ws1 ++ ws2) = occurrences w ws1 + occurrences w ws2.
Proof. unfold occurrences. rewrite filter_app, length_app. lia. Qed.

Lemma occurrences_pos (w : string) (ws : list string) : w ∈ ws → 1 <= occurrences w ws.
Proof.
  intros Hin. unfold occurrences.
  assert (w ∈ filter (λ x, x = w) ws) as Hf by by apply list_elem_of_filter.
  destruct (filter (λ x, x = w) ws); [by apply elem_of_nil in Hf|]. simpl. lia.
Qed.

Lemma occurrences_NoDup (w : string) (ws : list string) :
  NoDup ws → occurrences w ws = if decide (w ∈ ws) then 1 else 0.
Proof.
  induction 1 as [|x ws Hx Hnd IH].
  - by rewrite decide_False by apply not_elem_of_nil.
  - rewrite occurrences_cons, IH. destruct (decide (x = w)) as [->|Hne].
    + rewrite (decide_False _ _ Hx). by rewrite decide_True by left.
    + destruct (decide (w ∈ ws)).
      * by rewrite decide_True by by right.
      * rewrite decide_False; [done|]. rewrite not_elem_of_cons. naive_solver.
Qed.

Lemma occurrences_Permutation (w : string) (ws1 ws2 : list string) :
  ws1 ≡ₚ ws2 → occurrences w ws1 = occurrences w ws2.
Proof. intros Hp. unfold occurrences. by rewrite Hp. Qed.

Lemma tally_get (w : string) (d : list (string * Z)) (ws : list string) :
  default 0 (dict_get w (foldl count_weakness d ws))
  = default 0 (dict_get w d) + occurrences w ws.
Proof.
  revert d. induction ws as [|x ws IH]; intros d; simpl.
  - unfold occurrences. simpl. lia.
  - rewrite IH, occurrences_cons. unfold count_weakness at 1.
    rewrite dict_get_set. destruct (decide (w = x)) as [->|Hne].
    + rewrite decide_True by done. simpl. lia.
    + rewrite decide_False by done. lia.
Qed.

Lemma tally_keys (d : list (string * Z)) (ws : list string) :
  (foldl count_weakness d ws).*1 = d.*1 ++ filter (λ x, x ∉ d.*1) (first_seen ws).
Proof.
  revert d. induction ws as [|w ws IH]; intros d; simpl.
  - by rewrite app_nil_r.
  - rewrite IH. unfold count_weakness. rewrite dict_set_keys, filter_cons.
    rewrite list_filter_filter.
    destruct (decide (w ∈ d.*1)) as [Hin|Hin].
    + rewrite decide_False by tauto. f_equal. apply list_filter_iff.
      intros x. split; [|tauto]. intros Hx. split; [done|]. by intros ->.
    + rewrite decide_True by done. rewrite <- app_assoc. simpl. do 2 f_equal.
      apply list_filter_iff. intros x. rewrite not_elem_of_app, list_elem_of_singleton.
      tauto.
Qed.

Lemma tally_keys_first_seen (ws : list string) :
  (foldl count_weakness [] ws).*1 = first_seen ws.
Proof.
  rewrite tally_keys. simpl. apply filter_all. intros x _. apply not_elem_of_nil.
Qed.

(** The counter maps each weakness met to its number of occurrences. *)
Lemma tally_elem (w : string) (c : Z) (ws : list string) :
  (w, c) ∈ foldl count_weakness [] ws ↔ w ∈ ws ∧ c = occurrences w ws.
Proof.
  rewrite <- dict_get_Some_elem
    by (rewrite tally_keys_first_seen; apply NoDup_first_seen).
  pose proof (tally_get w [] ws) as Hget. simpl in Hget.
  rewrite <- elem_of_first_seen, <- tally_keys_first_seen.
  destruct (dict_get w (foldl count_weakness [] ws)) as [c'|] eqn:E; simpl in Hget.
  - assert (w ∈ (foldl count_weakness [] ws).*1) as Hin.
    { destruct (decide (w ∈ (foldl count_weakness [] ws).*1)) as [|Hn]; [done|].
      apply dict_get_None in Hn. congruence. }
    split; [intros [= <-]; split; [done|lia] | intros [_ ->]; f_equal; lia].
  - apply dict_get_None in E. split; [done|tauto].
Qed.

(** ** The aggregate analyzer *)

Lemma take_sample_size {A : Type} (l : list A) : take (Nat.min 10 (length l)) l = take 10 l.
Proof.
  destruct (decide (length l ≤ 10)%nat) as [Hle|Hgt].
  - rewrite Nat.min_r by done. rewrite !take_ge; [done|lia..].
  - rewrite Nat.min_l by lia. done.
Qed.

(** The sampling loop counts the weaknesses of the records it fetched. *)
Lemma sample_loop (gn : string → option PokemonStats) (names : list string)
    (d : list (string * Z)) (n : Z) :
  foldl (sample_step gn) (d, n) names
  = (foldl count_weakness d (weaknesses_met (omap gn names)),
     n + Z.of_nat (length (omap gn names))).
Proof.
  revert d n. induction names as [|x names IH]; intros d n; csimpl.
  - f_equal. lia.
  - unfold sample_step at 2. destruct (gn x) as [r|]; csimpl.
    + rewrite IH. unfold weaknesses_met. csimpl. rewrite foldl_app. f_equal. lia.
    + apply IH.
Qed.

Lemma percentages_loop_nil (total : Z) (acc : list (string * float)) :
  percentages_loop [] total acc = Ok acc.
Proof. done. Qed.

Lemma percentages_loop_ok (items : list (string * Z)) (total : Z)
    (acc : list (string * float)) :
  total ≠ 0 → NoDup (acc.*1 ++ items.*1) →
  percentages_loop items total acc
  = Ok (acc ++ ((λ item, (item.1, percentage item.2 total)) <$> items)).
Proof.
  intros Ht. revert acc. induction items as [|[w c] items IH]; intros acc Hnd; csimpl.
  - by rewrite app_nil_r.
  - unfold int_truediv. rewrite decide_False by done. csimpl.
    apply NoDup_app in Hnd as (Hacc & Hdisj & Hitems).
    apply NoDup_cons in Hitems as [Hw Hitems].
    rewrite dict_set_new by (intros Hin; apply (Hdisj w Hin); left).
    rewrite IH.
    + rewrite <- app_assoc. done.
    + rewrite fmap_app. csimpl. rewrite <- app_assoc. csimpl.
      apply NoDup_app. split; [done|]. split; [|by apply NoDup_cons].
      intros x Hx. apply Hdisj. done.
Qed.

(** What [analyze_type_weaknesses] returns, in terms of the records of the
    sample. *)
Lemma analyze_eq (gt : string → list string) (gn : string → option PokemonStats)
    (ty : string) :
  let records := sample_records gt gn ty in
  let total := Z.of_nat (length records) in
  let percentages :=
    (λ item, (item.1, percentage item.2 total))
      <$> foldl count_weakness [] (weaknesses_met records) in
  analyze_type_weaknesses gt gn ty
  = Ok {| type := ty;
          analyzed_pokemon_count := total;
          weakness_percentages := percentages;
          most_common_weakness := mode_of percentages |}.
Proof.
  cbv zeta. unfold analyze_type_weaknesses, sample_records.
  rewrite take_sample_size, sample_loop, Z.add_0_l. cbn [fst snd].
  destruct (omap gn (take 10 (gt ty))) as [|r records] eqn:E.
  - done.
  - rewrite percentages_loop_ok.
    + rewrite app_nil_l.
      generalize ((λ item : string * Z,
                     (item.1, percentage item.2 (Z.of_nat (length (r :: records)))))
                    <$> foldl count_weakness [] (weaknesses_met (r :: records))).
      intros [|first rest]; done.
    + simpl length. lia.
    + rewrite tally_keys_first_seen. apply NoDup_first_seen.
Qed.

Lemma length_omap_le {A B : Type} (f : A → option B) (l : list A) :
  (length (omap f l) ≤ length l)%nat.
Proof.
  induction l as [|x l IH]; csimpl; [done|].
  destruct (f x); csimpl; lia.
Qed.

Lemma length_sample_records gt gn ty :
  (length (sample_records gt gn ty) ≤ 10)%nat
  ∧ (length (sample_records gt gn ty) ≤ length (gt ty))%nat.
Proof.
  unfold sample_records.
  pose proof (length_omap_le gn (take 10 (gt ty))) as Hle.
  rewrite length_take in Hle. lia.
Qed.


(** C5. When the sample holds no record (the category has no name, or none of
    its first ten names could be fetched), the analysis returns, without an
    error, the result with count 0, an empty percentage mapping and no mode. *)
Theorem analyze_empty_sample (gt : string → list string)
    (gn : string → option PokemonStats) (ty : string) :
  sample_records gt gn ty = [] →
  analyze_type_weaknesses gt gn ty
  = Ok {| type := ty;
          analyzed_pokemon_count := 0;
          weakness_percentages := [];
          most_common_weakness := None |}.
Proof. intros Hempty. rewrite analyze_eq. cbv zeta. rewrite Hempty. done. Qed.

(** A category whose only name cannot be fetched. *)
Lemma analyze_empty_sample_witness :
  sample_records (λ _, ["missingno"]) (λ _, None) "bird" = []
  ∧ analyze_type_weaknesses (λ _, ["missingno"]) (λ _, None) "bird"
    = Ok {| type := "bird";
            analyzed_pokemon_count := 0;
            weakness_percentages := [];
            most_common_weakness := None |}.
Proof.
  split; [reflexivity|].
  apply (analyze_empty_sample (λ _, ["missingno"]) (λ _, None) "bird"). reflexivity.
Defined.


(** C10. The analysis fetches only the first [min(10, len(names))] names of
    the category: the count it reports is the number of those names that
    could be fetched, hence at most 10 and at most the number of names, and
    the names after the tenth have no influence on the result. *)
Theorem sample_capped_at_ten (gt : string → list string)
    (gn : string → option PokemonStats) (ty : string) :
  ∃ a, analyze_type_weaknesses gt gn ty = Ok a
    ∧ analyzed_pokemon_count a
      = Z.of_nat (length (omap gn (take (Nat.min 10 (length (gt ty))) (gt ty))))
    ∧ 0 <= analyzed_pokemon_count a <= 10
    ∧ analyzed_pokemon_count a <= Z.of_nat (Nat.min 10 (length (gt ty)))
    ∧ analyze_type_weaknesses (λ _, take 10 (gt ty)) gn ty = Ok a.
Proof.
  eexists. split; [apply analyze_eq|]. cbv zeta. cbn [analyzed_pokemon_count].
  pose proof (length_sample_records gt gn ty) as [H10 Hlen].
  split; [|split; [|split]].
  - by rewrite take_sample_size.
  - lia.
  - lia.
  - rewrite analyze_eq. cbv zeta. unfold sample_records.
    rewrite take_take, Nat.min_id. done.
Qed.

(** ** Percentages *)

(** For the counts that a sample of at most ten records can produce, the
    binary64 percentage lies between 0 and 100. *)
Lemma percentage_table :
  forallb (λ t, forallb (λ c, percentage_in_range c t) (seqZ 1 t)) (seqZ 1 10) = true.
Proof. vm_compute. reflexivity. Qed.

Lemma percentage_range (c t : Z) :
  1 <= c <= t → t <= 10 →
  float_le (float_of_int 0) (percentage c t) = true
  ∧ float_le (percentage c t) (float_of_int 100) = true.
Proof.
  intros Hc Ht. pose proof percentage_table as Htab.
  rewrite forallb_forall in Htab.
  assert (In t (seqZ 1 10)) as Hin_t by (apply list_elem_of_In, elem_of_seqZ; lia).
  specialize (Htab t Hin_t). rewrite forallb_forall in Htab.
  assert (In c (seqZ 1 t)) as Hin_c by (apply list_elem_of_In, elem_of_seqZ; lia).
  specialize (Htab c Hin_c). unfold percentage_in_range in Htab.
  by apply andb_true_iff in Htab.
Qed.

Lemma float_le_not_nan (x y : float) :
  float_le x y = true → is_nan x = false ∧ is_nan y = false.
Proof. unfold float_le, SFleb. destruct x, y; simpl; done. Qed.

Lemma float_le_key (x y : float) :
  float_le x y = true
  ↔ is_nan x = false ∧ is_nan y = false ∧ ¬ key_lt (float_key y) (float_key x).
Proof.
  unfold float_le, SFleb, key_lt.
  destruct x as [sx|sx| |sx mx ex], y as [sy|sy| |sy my ey]; simpl;
    try destruct sx; try destruct sy; simpl;
    try (split; [discriminate | intros (? & ? & ?); (discriminate || lia)]);
    try (split; [intros _; repeat split; lia | done]);
    compare_finite ex ey mx my;
    (split; [discriminate || (intros _; repeat split; lia)
            | intros (? & ? & ?); (done || lia)]).
Qed.

Lemma float_not_lt_le (x y : float) :
  is_nan x = false → is_nan y = false → float_lt x y = false → float_le y x = true.
Proof.
  intros Hx Hy Hlt. apply float_le_key. repeat split; [done..|].
  intros Hk. assert (float_lt x y = true) by by apply float_lt_key. congruence.
Qed.

(** The number of occurrences of a weakness among the weaknesses met is the
    number of records that have it, as each record lists it at most once. *)
Lemma occurrences_met (w : string) (records : list PokemonStats) :
  Forall (λ r, NoDup (weaknesses r)) records →
  occurrences w (weaknesses_met records) = records_with w records.
Proof.
  unfold weaknesses_met, records_with.
  induction 1 as [|r records Hr _ IH]; csimpl; [done|].
  rewrite occurrences_app, IH, (occurrences_NoDup _ _ Hr), filter_cons.
  destruct (decide (w ∈ weaknesses r)); simpl; lia.
Qed.

Lemma records_with_le (w : string) (records : list PokemonStats) :
  records_with w records <= Z.of_nat (length records).
Proof. unfold records_with. pose proof (length_filter (λ r, w ∈ weaknesses r) records). lia. Qed.

(** The entries of the percentage mapping of a sample. *)
Lemma elem_of_percentages (w : string) (p : float) (records : list PokemonStats) :
  Forall (λ r, NoDup (weaknesses r)) records →
  (w, p) ∈ ((λ item : string * Z, (item.1, percentage item.2 (Z.of_nat (length records))))
              <$> foldl count_weakness [] (weaknesses_met records))
  ↔ w ∈ weaknesses_met records
    ∧ p = percentage (records_with w records) (Z.of_nat (length records)).
Proof.
  intros Hnd. rewrite list_elem_of_fmap. split.
  - intros ([w' c] & [= -> ->] & Hin). apply tally_elem in Hin as [Hin ->].
    by rewrite occurrences_met.
  - intros [Hin ->]. exists (w, records_with w records). split; [done|].
    apply tally_elem. by rewrite occurrences_met.
Qed.

(** C3. For a non-empty sample whose records list each weakness once, every
    percentage of the result is the binary64 value of
    [(records having the weakness) / (number of records) * 100] and lies
    between 0 and 100; the mapping has an entry for each weakness met. *)
Theorem percentages_are_record_shares (gt : string → list string)
    (gn : string → option PokemonStats) (ty : string) :
  let records := sample_records gt gn ty in
  Forall (λ r, NoDup (weaknesses r)) records →
  records ≠ [] →
  ∃ a, analyze_type_weaknesses gt gn ty = Ok a
    ∧ analyzed_pokemon_count a = Z.of_nat (length records)
    ∧ (∀ w p, (w, p) ∈ weakness_percentages a →
         (∃ q, int_truediv (records_with w records) (analyzed_pokemon_count a) = Ok q
               ∧ p = float_mul_int q 100)
         ∧ float_le (float_of_int 0) p = true
         ∧ float_le p (float_of_int 100) = true)
    ∧ (∀ w, w ∈ weaknesses_met records → ∃ p, (w, p) ∈ weakness_percentages a).
Proof.
  intros records Hnd Hne. eexists. split; [apply analyze_eq|].
  cbv zeta. cbn [analyzed_pokemon_count weakness_percentages]. fold records.
  assert (0 < Z.of_nat (length records)) as Hpos by (destruct records; [done|simpl; lia]).
  split; [done|]. split.
  - intros w p Hin. apply elem_of_percentages in Hin as [Hin ->]; [|done].
    split.
    + eexists. split; [|reflexivity]. unfold int_truediv.
      rewrite decide_False by lia. done.
    + apply percentage_range.
      * split; [|apply records_with_le].
        rewrite <- occurrences_met by done. by apply occurrences_pos.
      * pose proof (length_sample_records gt gn ty) as [H10 _]. fold records in H10. lia.
  - intros w Hin. eexists. apply elem_of_percentages; done.
Qed.

(** The two-record scenario: water is at 100.0, ground at 50.0. *)
Lemma percentages_are_record_shares_witness :
  let records := sample_records scenario_names scenario_source "fire" in
  ∃ a, analyze_type_weaknesses scenario_names scenario_source "fire" = Ok a
    ∧ analyzed_pokemon_count a = Z.of_nat (length records)
    ∧ (∀ w p, (w, p) ∈ weakness_percentages a →
         (∃ q, int_truediv (records_with w records) (analyzed_pokemon_count a) = Ok q
               ∧ p = float_mul_int q 100)
         ∧ float_le (float_of_int 0) p = true
         ∧ float_le p (float_of_int 100) = true)
    ∧ (∀ w, w ∈ weaknesses_met records → ∃ p, (w, p) ∈ weakness_percentages a).
Proof.
  apply (percentages_are_record_shares scenario_names scenario_source "fire").
  - vm_compute. repeat constructor; set_solver.
  - vm_compute. discriminate.
Defined.

(** ** The mode *)

(** The scan of [max] returns the first item whose value no other item
    exceeds. *)
Lemma max_from_scan (pre : list (string * float)) (best : string * float)
    (rest : list (string * float)) (i : nat) :
  Forall (λ item, is_nan item.2 = false) (pre ++ rest) →
  pre !! i = Some best →
  (∀ j item, pre !! j = Some item → float_lt best.2 item.2 = false) →
  (∀ j item, (j < i)%nat → pre !! j = Some item → float_lt item.2 best.2 = true) →
  ∃ i', (pre ++ rest) !! i' = Some (max_from best rest)
    ∧ (∀ j item, (pre ++ rest) !! j = Some item →
         float_lt (max_from best rest).2 item.2 = false)
    ∧ (∀ j item, (j < i')%nat → (pre ++ rest) !! j = Some item →
         float_lt item.2 (max_from best rest).2 = true).
Proof.
  revert pre best i. induction rest as [|x rest IH]; intros pre best i Hnan Hi Hmax Hfirst.
  - rewrite app_nil_r. simpl. eauto.
  - simpl. replace (pre ++ x :: rest) with ((pre ++ [x]) ++ rest) in *
      by (by rewrite <- app_assoc).
    assert (Forall (λ item, is_nan item.2 = false) pre) as Hpre.
    { apply Forall_app in Hnan as [Hnan _]. by apply Forall_app in Hnan as [Hnan _]. }
    destruct (float_lt best.2 x.2) eqn:Hlt.
    + apply (IH (pre ++ [x]) x (length pre)); [done| | |].
      * rewrite lookup_app_r by done. by rewrite Nat.sub_diag.
      * intros j item Hj. apply lookup_app_Some in Hj as [Hj|[_ Hj]].
        -- apply not_true_is_false. intros Hx.
           pose proof (float_lt_trans _ _ _ Hlt Hx) as Hbi.
           rewrite (Hmax j item Hj) in Hbi. done.
        -- apply list_lookup_singleton_Some in Hj as [_ <-].
           destruct (float_lt x.2 x.2) eqn:Hxx; [|done].
           by rewrite (float_lt_asym _ _ Hxx) in Hxx.
      * intros j item Hjlt Hj. rewrite lookup_app_l in Hj by done.
        assert (is_nan item.2 = false) as Hitem.
        { rewrite Forall_forall in Hpre. apply Hpre. by eapply list_elem_of_lookup_2. }
        destruct (float_lt_cotrans best.2 item.2 x.2 Hitem Hlt) as [Hbi|Hix]; [|done].
        rewrite (Hmax j item Hj) in Hbi. done.
    + apply (IH (pre ++ [x]) best i); [done| | |].
      * apply lookup_app_l_Some. done.
      * intros j item Hj. apply lookup_app_Some in Hj as [Hj|[_ Hj]]; [by eapply Hmax|].
        by apply list_lookup_singleton_Some in Hj as [_ <-].
      * intros j item Hjlt Hj. apply lookup_lt_Some in Hi.
        rewrite lookup_app_l in Hj by lia. by eapply Hfirst.
Qed.

Lemma max_from_first_maximum (first : string * float) (rest : list (string * float)) :
  Forall (λ item, is_nan item.2 = false) (first :: rest) →
  ∃ i, (first :: rest) !! i = Some (max_from first rest)
    ∧ (∀ j item, (first :: rest) !! j = Some item →
         float_le item.2 (max_from first rest).2 = true)
    ∧ (∀ j item, (j < i)%nat → (first :: rest) !! j = Some item →
         float_lt item.2 (max_from first rest).2 = true).
Proof.
  intros Hnan.
  destruct (max_from_scan [first] first rest 0%nat) as (i & Hi & Hmax & Hfirst).
  - done.
  - done.
  - intros j item Hj. apply list_lookup_singleton_Some in Hj as [_ <-].
    destruct (float_lt first.2 first.2) eqn:Hxx; [|done].
    by rewrite (float_lt_asym _ _ Hxx) in Hxx.
  - intros j item Hj. lia.
  - exists i. split; [done|]. split; [|done].
    intros j item Hj. rewrite Forall_forall in Hnan.
    apply float_not_lt_le; [| |by eapply Hmax].
    + apply Hnan. by eapply list_elem_of_lookup_2.
    + apply Hnan. by eapply list_elem_of_lookup_2.
Qed.

Lemma percentages_not_nan (records : list PokemonStats) :
  Forall (λ r, NoDup (weaknesses r)) records →
  (length records ≤ 10)%nat →
  Forall (λ item : string * float, is_nan item.2 = false)
    ((λ item : string * Z, (item.1, percentage item.2 (Z.of_nat (length records))))
       <$> foldl count_weakness [] (weaknesses_met records)).
Proof.
  intros Hnd Hlen. apply Forall_forall. intros [w p] Hin.
  apply elem_of_percentages in Hin as [Hin ->]; [|done]. cbn [snd].
  assert (1 <= records_with w records) as Hone
    by (rewrite <- occurrences_met by done; by apply occurrences_pos).
  pose proof (records_with_le w records) as Hle.
  destruct (percentage_range (records_with w records) (Z.of_nat (length records)))
    as [H0 _]; [lia..|].
  by apply float_le_not_nan in H0 as [_ ?].
Qed.

Lemma first_seen_nil (ws : list string) : first_seen ws = [] ↔ ws = [].
Proof. destruct ws; simpl; split; done. Qed.

Lemma percentages_keys (total : Z) (counter : list (string * Z)) :
  ((λ item : string * Z, (item.1, percentage item.2 total)) <$> counter).*1 = counter.*1.
Proof. rewrite <- list_fmap_compose. by apply list_fmap_ext. Qed.

(** The mode of an analysis, for a sample whose records list each weakness
    once. *)
Lemma analyze_mode (gt : string → list string) (gn : string → option PokemonStats)
    (ty : string) :
  let records := sample_records gt gn ty in
  Forall (λ r, NoDup (weaknesses r)) records →
  ∃ a, analyze_type_weaknesses gt gn ty = Ok a
    ∧ (weakness_percentages a).*1 = first_seen (weaknesses_met records)
    ∧ (most_common_weakness a = None ↔ weaknesses_met records = [])
    ∧ (∀ w p, most_common_weakness a = Some (w, p) →
         ∃ i, weakness_percentages a !! i = Some (w, p)
           ∧ (∀ j item, weakness_percentages a !! j = Some item →
                float_le item.2 p = true)
           ∧ (∀ j item, (j < i)%nat → weakness_percentages a !! j = Some item →
                float_lt item.2 p = true)).
Proof.
  intros records Hnd. eexists. split; [apply analyze_eq|].
  cbv zeta. cbn [weakness_percentages most_common_weakness]. fold records.
  pose proof (length_sample_records gt gn ty) as [H10 _]. fold records in H10.
  pose proof (percentages_not_nan records Hnd H10) as Hnan.
  pose proof (percentages_keys (Z.of_nat (length records))
                (foldl count_weakness [] (weaknesses_met records))) as Hkeys.
  rewrite tally_keys_first_seen in Hkeys.
  destruct ((λ item : string * Z, (item.1, percentage item.2 (Z.of_nat (length records))))
              <$> foldl count_weakness [] (weaknesses_met records))
    as [|first rest] eqn:E.
  - split; [done|]. split; [|done]. split; [|done].
    intros _. by apply first_seen_nil.
  - split; [done|]. split.
    + split; [done|]. intros Hnil. rewrite Hnil in Hkeys. done.
    + intros w p [= Hmode].
      destruct (max_from_first_maximum first rest Hnan) as (i & Hi & Hmax & Hfirst).
      rewrite Hmode in Hi, Hmax, Hfirst. eauto.
Qed.

(** C4. When every record of the sample lists each weakness once: the keys of
    the percentage mapping are the weaknesses in the order in which they are
    first met; there is no mode exactly when no record has a weakness;
    otherwise the mode is an entry of the mapping that no entry exceeds and
    that every earlier entry is strictly below.  For two records with
    weaknesses {water, ground} and {water} the mapping is
    {water: 100.0, ground: 50.0} and the mode is (water, 100.0). *)
Theorem mode_is_first_maximum :
  (∀ (gt : string → list string) (gn : string → option PokemonStats) (ty : string),
     let records := sample_records gt gn ty in
     Forall (λ r, NoDup (weaknesses r)) records →
     ∃ a, analyze_type_weaknesses gt gn ty = Ok a
       ∧ (weakness_percentages a).*1 = first_seen (weaknesses_met records)
       ∧ (most_common_weakness a = None ↔ weaknesses_met records = [])
       ∧ (∀ w p, most_common_weakness a = Some (w, p) →
            ∃ i, weakness_percentages a !! i = Some (w, p)
              ∧ (∀ j item, weakness_percentages a !! j = Some item →
                   float_le item.2 p = true)
              ∧ (∀ j item, (j < i)%nat → weakness_percentages a !! j = Some item →
                   float_lt item.2 p = true)))
  ∧ (∀ (gt : string → list string) (gn : string → option PokemonStats) (ty : string)
       (r1 r2 : PokemonStats),
       sample_records gt gn ty = [r1; r2] →
       weaknesses r1 ≡ₚ ["water"; "ground"] → weaknesses r2 = ["water"] →
       ∃ a, analyze_type_weaknesses gt gn ty = Ok a
         ∧ weakness_percentages a
           ≡ₚ [("water", float_of_int 100); ("ground", float_of_int 50)]
         ∧ most_common_weakness a = Some ("water", float_of_int 100)).
Proof.
  split.
  - apply analyze_mode.
  - intros gt gn ty r1 r2 Hrecords Hr1 Hr2. eexists. split; [apply analyze_eq|].
    cbv zeta. cbn [weakness_percentages most_common_weakness]. rewrite Hrecords.
    unfold weaknesses_met. csimpl. rewrite Hr2.
    symmetry in Hr1. apply Permutation_length_2_inv in Hr1 as [-> | ->].
    + split; [|by vm_compute]. vm_compute. reflexivity.
    + split; [|by vm_compute]. vm_compute. apply perm_swap.
Qed.

(** The general statement and the scenario, on the two-record data source. *)
Lemma mode_is_first_maximum_witness :
  let records := sample_records scenario_names scenario_source "fire" in
  (∃ a, analyze_type_weaknesses scenario_names scenario_source "fire" = Ok a
     ∧ (weakness_percentages a).*1 = first_seen (weaknesses_met records)
     ∧ (most_common_weakness a = None ↔ weaknesses_met records = [])
     ∧ (∀ w p, most_common_weakness a = Some (w, p) →
          ∃ i, weakness_percentages a !! i = Some (w, p)
            ∧ (∀ j item, weakness_percentages a !! j = Some item →
                 float_le item.2 p = true)
            ∧ (∀ j item, (j < i)%nat → weakness_percentages a !! j = Some item →
                 float_lt item.2 p = true)))
  ∧ (∃ a, analyze_type_weaknesses scenario_names scenario_source "fire" = Ok a
       ∧ weakness_percentages a
         ≡ₚ [("water", float_of_int 100); ("ground", float_of_int 50)]
       ∧ most_common_weakness a = Some ("water", float_of_int 100)).
Proof.
  split.
  - apply (proj1 mode_is_first_maximum scenario_names scenario_source "fire").
    vm_compute. repeat constructor; set_solver.
  - apply (proj2 mode_is_first_maximum scenario_names scenario_source "fire"
             (record_with_weaknesses "first" ["water"; "ground"])
             (record_with_weaknesses "second" ["water"])).
    + reflexivity.
    + reflexivity.
    + reflexivity.
Defined.

(** A sample can be non-empty and still have no mode: a record whose only
    type has no profile has no weakness, and the analysis then reports one
    analyzed record, an empty mapping and no mode. *)
Lemma mode_absent_for_nonempty_sample :
  sample_records (get_pokemon_by_type shadow_names)
    (get_pokemon_by_name gset_order _get_simplified_type_chart shadow_pokemon) "shadow" ≠ []
  ∧ api_analyze_type_weaknesses gset_order _get_simplified_type_chart
      shadow_pokemon shadow_names "shadow"
    = Ok {| type := "shadow";
            analyzed_pokemon_count := 1;
            weakness_percentages := [];
            most_common_weakness := None |}.
Proof. split; [by vm_compute|]. vm_compute. reflexivity. Qed.

(** ** Sorting by value *)

Lemma float_lt_le (x y : float) : float_lt x y = true → float_le x y = true.
Proof.
  rewrite float_lt_key, float_le_key. unfold key_lt.
  intros (? & ? & ?). repeat split; [done..|]. lia.
Qed.

Lemma float_le_trans (x y z : float) :
  float_le x y = true → float_le y z = true → float_le x z = true.
Proof.
  rewrite !float_le_key. unfold key_lt.
  intros (? & ? & ?) (? & ? & ?). repeat split; [done..|]. lia.
Qed.

Lemma insert_by_value_perm (x : string * float) (l : list (string * float)) :
  insert_by_value x l ≡ₚ x :: l.
Proof.
  induction l as [|y l IH]; simpl; [done|].
  destruct (float_lt y.2 x.2); [|done].
  rewrite IH. apply perm_swap.
Qed.

Lemma sorted_by_value_perm (l : list (string * float)) : sorted_by_value l ≡ₚ l.
Proof.
  induction l as [|x l IH]; simpl; [done|].
  rewrite insert_by_value_perm. by rewrite IH.
Qed.

Lemma insert_by_value_sorted (x : string * float) (l : list (string * float)) :
  is_nan x.2 = false → Forall (λ item, is_nan item.2 = false) l →
  StronglySorted value_le l → StronglySorted value_le (insert_by_value x l).
Proof.
  intros Hx Hnan. induction 1 as [|y l Hsorted IH Hy]; simpl.
  - repeat constructor.
  - apply Forall_cons in Hnan as [Hynan Hnan].
    destruct (float_lt y.2 x.2) eqn:Hlt.
    + constructor; [by apply IH|].
      rewrite insert_by_value_perm. constructor; [|done].
      by apply float_lt_le.
    + assert (value_le x y) as Hxy by by apply float_not_lt_le.
      constructor; [by constructor|]. constructor; [done|].
      eapply Forall_impl; [exact Hy|]. intros z Hyz. unfold value_le in *.
      by eapply float_le_trans.
Qed.

Lemma sorted_by_value_sorted (l : list (string * float)) :
  Forall (λ item, is_nan item.2 = false) l → StronglySorted value_le (sorted_by_value l).
Proof.
  induction 1 as [|x l Hx Hnan IH]; simpl; [constructor|].
  apply insert_by_value_sorted; [done| |done].
  by rewrite sorted_by_value_perm.
Qed.

(** Inserting an item does not reorder the items that tie with one value. *)
Lemma ties_insert_by_value (p : float) (x : string * float) (l : list (string * float)) :
  ties p (insert_by_value x l) = ties p (x :: l).
Proof.
  unfold ties. induction l as [|y l IH]; simpl; [done|].
  destruct (float_lt y.2 x.2) eqn:Hlt; [|done].
  rewrite filter_cons, IH, !filter_cons.
  destruct (decide (float_eq y.2 p = true)) as [Hy|Hy]; [|done].
  destruct (decide (float_eq x.2 p = true)) as [Hx|Hx]; [|done].
  rewrite (float_eq_not_lt _ _ _ Hy Hx) in Hlt. done.
Qed.

Lemma ties_sorted_by_value (p : float) (l : list (string * float)) :
  ties p (sorted_by_value l) = ties p l.
Proof.
  induction l as [|x l IH]; simpl; [done|].
  rewrite ties_insert_by_value. unfold ties in *. by rewrite !filter_cons, IH.
Qed.

Lemma StronglySorted_reverse {A : Type} (R : relation A) (l : list A) :
  StronglySorted R l → StronglySorted (flip R) (reverse l).
Proof.
  induction 1 as [|x l Hsorted IH Hx]; [constructor|].
  rewrite reverse_cons. apply StronglySorted_app. split; [|split].
  - intros x1 x2 Hx1 ->%list_elem_of_singleton. unfold flip.
    rewrite Forall_forall in Hx. apply Hx. by apply elem_of_reverse.
  - done.
  - repeat constructor.
Qed.

Lemma sorted_by_value_reverse_perm (l : list (string * float)) :
  sorted_by_value_reverse l ≡ₚ l.
Proof.
  unfold sorted_by_value_reverse.
  by rewrite reverse_Permutation, sorted_by_value_perm, reverse_Permutation.
Qed.

Lemma sorted_by_value_reverse_sorted (l : list (string * float)) :
  Forall (λ item, is_nan item.2 = false) l →
  StronglySorted value_ge (sorted_by_value_reverse l).
Proof.
  intros Hnan. unfold sorted_by_value_reverse.
  apply (StronglySorted_reverse value_le), sorted_by_value_sorted.
  by rewrite reverse_Permutation.
Qed.

Lemma ties_sorted_by_value_reverse (p : float) (l : list (string * float)) :
  ties p (sorted_by_value_reverse l) = ties p l.
Proof.
  unfold sorted_by_value_reverse, ties.
  rewrite filter_reverse. fold (ties p (sorted_by_value (reverse l))).
  rewrite ties_sorted_by_value. unfold ties.
  by rewrite filter_reverse, reverse_involutive.
Qed.

(** ** The report *)

(** C7. In the report of any research data whose weakness analysis has a
    percentage mapping without NaN, the weakness entries of the findings
    section are the lines of the mapping's items in an order that is a
    rearrangement of the mapping, in which no entry has a larger percentage
    than an entry before it, and in which entries with equal percentages
    keep the order they have in the mapping. *)
Theorem report_weakness_lines_descending (rd : research_data) (wd : weakness_data)
    (percentages : list (string * float)) :
  weakness_analysis rd = Some wd →
  wd_weakness_percentages wd = Some percentages →
  Forall (λ item, is_nan item.2 = false) percentages →
  let entries := sorted_by_value_reverse percentages in
  generate_report rd = join (String "010" (String "010" EmptyString)) (report_sections rd)
  ∧ (∃ before after, report_sections rd = before ++ findings_sections rd ++ after)
  ∧ (∃ lead, findings_sections rd
             = lead ++ "- Weakness distribution:" :: (distribution_line <$> entries))
  ∧ entries ≡ₚ percentages
  ∧ StronglySorted value_ge entries
  ∧ (∀ p, ties p entries = ties p percentages).
Proof.
  intros Hwd Hpct Hnan entries. split; [done|]. split; [|split; [|split; [|split]]].
  - exists (["# Pokémon Research Report"; "## Executive Summary"]
            ++ summary_sections rd
            ++ ["## Methodology";
                "Data collected via PokéAPI with statistical analysis performed on type effectiveness and base stats.";
                "## Key Findings"]).
    exists ["## Strategic Recommendations";
            "Based on the analysis, trainers should consider type coverage and defensive strategies when building teams."].
    unfold report_sections. by rewrite <- !app_assoc.
  - unfold findings_sections, percentages_sections, distribution_lines.
    rewrite Hwd, Hpct.
    exists (["- Analyzed " +:+ format_int (default 0 (wd_analyzed_pokemon_count wd)) +:+
             " Pokémon specimens"] ++ most_common_sections wd).
    by rewrite <- app_assoc.
  - apply sorted_by_value_reverse_perm.
  - by apply sorted_by_value_reverse_sorted.
  - intros p. apply ties_sorted_by_value_reverse.
Qed.

(** A mapping with a tie: water first, then rock and ground in the order of
    the mapping. *)
Lemma report_weakness_lines_descending_witness :
  let rd := {| weakness_analysis := Some (weakness_data_of tied_result) |} in
  let entries := sorted_by_value_reverse (weakness_percentages tied_result) in
  entries = [("water", float_of_int 100); ("rock", float_of_int 50); ("ground", float_of_int 50)]
  ∧ generate_report rd = join (String "010" (String "010" EmptyString)) (report_sections rd)
  ∧ (∃ before after, report_sections rd = before ++ findings_sections rd ++ after)
  ∧ (∃ lead, findings_sections rd
             = lead ++ "- Weakness distribution:" :: (distribution_line <$> entries))
  ∧ entries ≡ₚ weakness_percentages tied_result
  ∧ StronglySorted value_ge entries
  ∧ (∀ p, ties p entries = ties p (weakness_percentages tied_result)).
Proof.
  split; [vm_compute; reflexivity|].
  apply (report_weakness_lines_descending
           {| weakness_analysis := Some (weakness_data_of tied_result) |}
           (weakness_data_of tied_result) (weakness_percentages tied_result)).
  - reflexivity.
  - reflexivity.
  - vm_compute. repeat constructor.
Defined.

(** ** Dependence on the set iteration order *)

Lemma elem_of_weaknesses_parse (o1 o2 : SetOrder) table data (w : string) :
  w ∈ weaknesses (_parse_pokemon_data o1 table data)
  ↔ w ∈ weaknesses (_parse_pokemon_data o2 table data).
Proof. unfold _parse_pokemon_data. cbn [weaknesses]. by rewrite !elem_of_py_list. Qed.

Lemma py_list_Permutation (o1 o2 : SetOrder) (s : py_set) : py_list o1 s ≡ₚ py_list o2 s.
Proof. by rewrite !py_list_perm. Qed.

Lemma records_with_parse (o1 o2 : SetOrder) table (datas : list pokemon_json) (w : string) :
  records_with w (_parse_pokemon_data o1 table <$> datas)
  = records_with w (_parse_pokemon_data o2 table <$> datas).
Proof.
  unfold records_with. f_equal.
  induction datas as [|data datas IH]; csimpl; [done|].
  rewrite !filter_cons.
  destruct (decide (w ∈ weaknesses (_parse_pokemon_data o1 table data))) as [H1|H1];
    destruct (decide (w ∈ weaknesses (_parse_pokemon_data o2 table data))) as [H2|H2];
    csimpl; try lia.
  - exfalso. apply H2. by apply (elem_of_weaknesses_parse o1 o2).
  - exfalso. apply H1. by apply (elem_of_weaknesses_parse o1 o2).
Qed.

Lemma weaknesses_met_parse (o1 o2 : SetOrder) table (datas : list pokemon_json) :
  weaknesses_met (_parse_pokemon_data o1 table <$> datas)
  ≡ₚ weaknesses_met (_parse_pokemon_data o2 table <$> datas).
Proof.
  unfold weaknesses_met. induction datas as [|data datas IH]; csimpl; [done|].
  rewrite IH. apply Permutation_app_tail. unfold _parse_pokemon_data. cbn [weaknesses].
  apply py_list_Permutation.
Qed.

Lemma Forall_NoDup_parse (o : SetOrder) table (datas : list pokemon_json) :
  Forall (λ r, NoDup (weaknesses r)) (_parse_pokemon_data o table <$> datas).
Proof.
  apply Forall_fmap, Forall_forall. intros data _. apply NoDup_py_list.
Qed.

(** The sample of a [PokemonAPI] object is the parse of the fetched data. *)
Lemma api_sample_records (o : SetOrder) table http_pokemon http_type (ty : string) :
  sample_records (get_pokemon_by_type http_type)
    (get_pokemon_by_name o table http_pokemon) ty
  = _parse_pokemon_data o table
      <$> omap (λ n, http_pokemon (lower n)) (take 10 (get_pokemon_by_type http_type ty)).
Proof. unfold sample_records, get_pokemon_by_name. by rewrite list_fmap_omap. Qed.

Lemma NoDup_percentages (total : Z) (ws : list string) :
  NoDup ((λ item : string * Z, (item.1, percentage item.2 total))
           <$> foldl count_weakness [] ws).
Proof.
  apply (NoDup_fmap_1 fst). rewrite percentages_keys, tally_keys_first_seen.
  apply NoDup_first_seen.
Qed.

Lemma float_le_antisym (x y : float) :
  float_le x y = true → float_le y x = true → float_eq x y = true.
Proof.
  rewrite !float_le_key, float_eq_key. unfold key_lt.
  intros (? & ? & Hyx) (_ & _ & Hxy). repeat split; [done..|].
  destruct (float_key x) as [[a b] c], (float_key y) as [[a' b'] c']. simpl in *.
  assert (a = a') by lia. assert (b = b') by lia. assert (c = c') by lia. congruence.
Qed.

(** C9. Outputs are determined by the inputs up to the order in which the
    interpreter iterates a set: under two iteration orders the parsed
    records agree on every field except that the weakness and resistance
    lists are rearrangements of each other, and the analyses agree on the
    type, the count and the entries of the percentage mapping, which are
    rearrangements of each other, and on the percentage of the mode; under
    one iteration order the outputs are equal, order included; and the
    analysis is a function of the type name and of the sequence of records
    of the sample, weakness lists in their order. *)
Theorem results_agree_up_to_set_order (o1 o2 : SetOrder)
    (table : gmap string type_entry) (http_pokemon : string → option pokemon_json)
    (http_type : string → option (list string)) (data : pokemon_json) (ty : string)
    (gt1 gt2 : string → list string) (gn1 gn2 : string → option PokemonStats) :
  (let r1 := _parse_pokemon_data o1 table data in
   let r2 := _parse_pokemon_data o2 table data in
   name r1 = name r2 ∧ types r1 = types r2
   ∧ (hp r1, attack r1, defense r1) = (hp r2, attack r2, defense r2)
   ∧ (special_attack r1, special_defense r1, speed r1)
     = (special_attack r2, special_defense r2, speed r2)
   ∧ weaknesses r1 ≡ₚ weaknesses r2 ∧ resistances r1 ≡ₚ resistances r2)
  ∧ (∃ a1 a2,
       api_analyze_type_weaknesses o1 table http_pokemon http_type ty = Ok a1
       ∧ api_analyze_type_weaknesses o2 table http_pokemon http_type ty = Ok a2
       ∧ type a1 = type a2
       ∧ analyzed_pokemon_count a1 = analyzed_pokemon_count a2
       ∧ weakness_percentages a1 ≡ₚ weakness_percentages a2
       ∧ (most_common_weakness a1 = None ↔ most_common_weakness a2 = None)
       ∧ (∀ m1 m2, most_common_weakness a1 = Some m1 →
            most_common_weakness a2 = Some m2 → float_eq m1.2 m2.2 = true))
  ∧ ((∀ s, py_list o1 s = py_list o2 s) →
     _parse_pokemon_data o1 table data = _parse_pokemon_data o2 table data
     ∧ api_analyze_type_weaknesses o1 table http_pokemon http_type ty
       = api_analyze_type_weaknesses o2 table http_pokemon http_type ty)
  ∧ (sample_records gt1 gn1 ty = sample_records gt2 gn2 ty →
     analyze_type_weaknesses gt1 gn1 ty = analyze_type_weaknesses gt2 gn2 ty).
Proof.
  split; [|split; [|split]].
  - cbv zeta. unfold _parse_pokemon_data.
    cbn [name types hp attack defense special_attack special_defense speed
         weaknesses resistances].
    repeat split; apply py_list_Permutation.
  - unfold api_analyze_type_weaknesses.
    set (gt := get_pokemon_by_type http_type).
    set (datas := omap (λ n, http_pokemon (lower n)) (take 10 (gt ty))).
    assert (∀ o, sample_records gt (get_pokemon_by_name o table http_pokemon) ty
                 = _parse_pokemon_data o table <$> datas) as Hsample
      by (intros o; apply api_sample_records).
    destruct (analyze_mode gt (get_pokemon_by_name o1 table http_pokemon) ty)
      as (a1 & Ha1 & _ & Hnone1 & Hmax1).
    { rewrite Hsample. apply Forall_NoDup_parse. }
    destruct (analyze_mode gt (get_pokemon_by_name o2 table http_pokemon) ty)
      as (a2 & Ha2 & _ & Hnone2 & Hmax2).
    { rewrite Hsample. apply Forall_NoDup_parse. }
    exists a1, a2. split; [done|]. split; [done|].
    pose proof Ha1 as Hb1. pose proof Ha2 as Hb2.
    rewrite analyze_eq in Hb1, Hb2. cbv zeta in Hb1, Hb2.
    rewrite Hsample in Hb1, Hb2, Hnone1, Hnone2.
    injection Hb1 as <-. injection Hb2 as <-.
    cbn [type analyzed_pokemon_count weakness_percentages most_common_weakness] in *.
    rewrite ?length_fmap in *.
    pose proof (weaknesses_met_parse o1 o2 table datas) as Hmet.
    assert (((λ item : string * Z, (item.1, percentage item.2 (Z.of_nat (length datas))))
               <$> foldl count_weakness []
                     (weaknesses_met (_parse_pokemon_data o1 table <$> datas)))
            ≡ₚ ((λ item : string * Z, (item.1, percentage item.2 (Z.of_nat (length datas))))
                  <$> foldl count_weakness []
                        (weaknesses_met (_parse_pokemon_data o2 table <$> datas))))
      as Hperm.
    { apply NoDup_Permutation; [apply NoDup_percentages..|].
      intros [w p].
      pose proof (elem_of_percentages w p (_parse_pokemon_data o1 table <$> datas)
                    (Forall_NoDup_parse o1 table datas)) as E1.
      pose proof (elem_of_percentages w p (_parse_pokemon_data o2 table <$> datas)
                    (Forall_NoDup_parse o2 table datas)) as E2.
      rewrite length_fmap in E1, E2. rewrite E1, E2.
      rewrite (records_with_parse o1 o2), Hmet. done. }
    split; [done|]. split; [done|]. split; [done|]. split.
    + rewrite Hnone1, Hnone2. split; intros Hnil.
      * apply Permutation_nil_r. by rewrite <- Hmet, Hnil.
      * apply Permutation_nil_r. by rewrite Hmet, Hnil.
    + intros [w1 p1] [w2 p2] Hm1 Hm2. cbn [snd].
      destruct (Hmax1 w1 p1 Hm1) as (i1 & Hi1 & Hle1 & _).
      destruct (Hmax2 w2 p2 Hm2) as (i2 & Hi2 & Hle2 & _).
      apply float_le_antisym.
      * apply list_elem_of_lookup_2 in Hi1. rewrite Hperm in Hi1.
        apply list_elem_of_lookup_1 in Hi1 as [j Hj]. apply (Hle2 j _ Hj).
      * apply list_elem_of_lookup_2 in Hi2. rewrite <- Hperm in Hi2.
        apply list_elem_of_lookup_1 in Hi2 as [j Hj]. apply (Hle1 j _ Hj).
  - intros Hsame.
    assert (∀ d, _parse_pokemon_data o1 table d = _parse_pokemon_data o2 table d) as Hparse
      by (intros d; unfold _parse_pokemon_data; by rewrite !Hsame).
    split; [done|]. unfold api_analyze_type_weaknesses.
    rewrite !analyze_eq. cbv zeta. rewrite !api_sample_records.
    assert (∀ l : list pokemon_json,
              _parse_pokemon_data o1 table <$> l = _parse_pokemon_data o2 table <$> l) as Hmap
      by (intros l; apply list_fmap_ext; intros; apply Hparse).
    by rewrite Hmap.
  - intros Hrecords. rewrite !analyze_eq. cbv zeta. by rewrite Hrecords.
Qed.

(** One fire-type record under two iteration orders, and two data sources
    that give the same records. *)
Lemma results_agree_up_to_set_order_witness :
  (∃ a1 a2,
     api_analyze_type_weaknesses gset_order _get_simplified_type_chart
       fire_pokemon fire_names "fire" = Ok a1
     ∧ api_analyze_type_weaknesses reversed_gset_order _get_simplified_type_chart
         fire_pokemon fire_names "fire" = Ok a2
     ∧ type a1 = type a2
     ∧ analyzed_pokemon_count a1 = analyzed_pokemon_count a2
     ∧ weakness_percentages a1 ≡ₚ weakness_percentages a2
     ∧ (most_common_weakness a1 = None ↔ most_common_weakness a2 = None)
     ∧ (∀ m1 m2, most_common_weakness a1 = Some m1 →
          most_common_weakness a2 = Some m2 → float_eq m1.2 m2.2 = true))
  ∧ (∀ s, py_list gset_order s = py_list gset_order s)
  ∧ api_analyze_type_weaknesses gset_order _get_simplified_type_chart
      fire_pokemon fire_names "fire"
    = api_analyze_type_weaknesses gset_order _get_simplified_type_chart
        fire_pokemon fire_names "fire"
  ∧ sample_records scenario_names scenario_source "fire"
    = sample_records (λ _, ["first"; "missing"; "second"]) scenario_source "fire"
  ∧ analyze_type_weaknesses scenario_names scenario_source "fire"
    = analyze_type_weaknesses (λ _, ["first"; "missing"; "second"]) scenario_source "fire".
Proof.
  pose (data := {| json_name := "charmander"; json_types := ["fire"]; json_stats := [] |}).
  split; [|split; [|split; [|split]]].
  - apply (results_agree_up_to_set_order gset_order reversed_gset_order
             _get_simplified_type_chart fire_pokemon fire_names data "fire"
             scenario_names scenario_names scenario_source scenario_source).
  - reflexivity.
  - apply (results_agree_up_to_set_order gset_order gset_order
             _get_simplified_type_chart fire_pokemon fire_names data "fire"
             scenario_names scenario_names scenario_source scenario_source).
    reflexivity.
  - reflexivity.
  - apply (results_agree_up_to_set_order gset_order gset_order
             _get_simplified_type_chart fire_pokemon fire_names data "fire"
             scenario_names (λ _, ["first"; "missing"; "second"])
             scenario_source scenario_source).
    reflexivity.
Defined.

(** The order of the outputs is not determined by the inputs alone: on the
    same record of type "fire", two iteration orders give the weakness list
    in two different orders, and the analyses of the same one-record
    category differ in the order of the percentage mapping and in the mode. *)
Lemma set_order_changes_output :
  let data := {| json_name := "charmander"; json_types := ["fire"]; json_stats := [("hp", 39)] |} in
  weaknesses (_parse_pokemon_data gset_order _get_simplified_type_chart data)
    = ["water"; "ground"; "rock"]
  ∧ weaknesses (_parse_pokemon_data reversed_gset_order _get_simplified_type_chart data)
    = ["rock"; "ground"; "water"]
  ∧ api_analyze_type_weaknesses gset_order _get_simplified_type_chart
      fire_pokemon fire_names "fire"
    = Ok {| type := "fire";
            analyzed_pokemon_count := 1;
            weakness_percentages :=
              [("water", float_of_int 100); ("ground", float_of_int 100);
               ("rock", float_of_int 100)];
            most_common_weakness := Some ("water", float_of_int 100) |}
  ∧ api_analyze_type_weaknesses reversed_gset_order _get_simplified_type_chart
      fire_pokemon fire_names "fire"
    = Ok {| type := "fire";
            analyzed_pokemon_count := 1;
            weakness_percentages :=
              [("rock", float_of_int 100); ("ground", float_of_int 100);
               ("water", float_of_int 100)];
            most_common_weakness := Some ("rock", float_of_int 100) |}
  ∧ api_analyze_type_weaknesses gset_order _get_simplified_type_chart
      fire_pokemon fire_names "fire"
    ≠ api_analyze_type_weaknesses reversed_gset_order _get_simplified_type_chart
        fire_pokemon fire_names "fire".
Proof.
  cbv zeta. repeat split; try (vm_compute; reflexivity).
  vm_compute. discriminate.
Qed.

(** * Further properties of the code *)

(** ** The resolver, declaratively *)

Lemma resolve_loop_elem table (type_names : list string) (acc : py_set * py_set)
    (x : string) :
  let sets := foldl (resolve_step table) acc type_names in
  (x ∈ contents sets.1
   ↔ x ∈ contents acc.1
     ∨ ∃ t entry, t ∈ type_names ∧ table !! t = Some entry ∧ x ∈ entry_weaknesses entry)
  ∧ (x ∈ contents sets.2
     ↔ x ∈ contents acc.2
       ∨ ∃ t entry, t ∈ type_names ∧ table !! t = Some entry ∧ x ∈ entry_resistances entry).
Proof.
  cbv zeta. revert acc. induction type_names as [|t ts IH]; intros acc.
  - simpl. split; (split; [by left|]); intros [?|(t & e & Ht & _)]; try done;
      by apply elem_of_nil in Ht.
  - simpl. destruct (IH (resolve_step table acc t)) as [IH1 IH2].
    rewrite IH1, IH2. clear IH IH1 IH2. unfold resolve_step.
    destruct (table !! t) as [entry|] eqn:Ht; simpl.
    + rewrite !elem_of_union, !elem_of_list_to_set. split.
      * split.
        -- intros [[?|?]|(t' & e & ? & ? & ?)]; [by left| |].
           ++ right. exists t, entry. split; [left|]; done.
           ++ right. exists t', e. split; [by right|done].
        -- intros [?|(t' & e & [->|?]%elem_of_cons & He & ?)]; [by left; left| |].
           ++ left. right. congruence.
           ++ right. by exists t', e.
      * split.
        -- intros [[?|?]|(t' & e & ? & ? & ?)]; [by left| |].
           ++ right. exists t, entry. split; [left|]; done.
           ++ right. exists t', e. split; [by right|done].
        -- intros [?|(t' & e & [->|?]%elem_of_cons & He & ?)]; [by left; left| |].
           ++ left. right. congruence.
           ++ right. by exists t', e.
    + split.
      * split.
        -- intros [?|(t' & e & ? & ? & ?)]; [by left|].
           right. exists t', e. split; [by right|done].
        -- intros [?|(t' & e & [->|?]%elem_of_cons & He & ?)]; [by left|congruence|].
           right. by exists t', e.
      * split.
        -- intros [?|(t' & e & ? & ? & ?)]; [by left|].
           right. exists t', e. split; [by right|done].
        -- intros [?|(t' & e & [->|?]%elem_of_cons & He & ?)]; [by left|congruence|].
           right. by exists t', e.
Qed.

Lemma elem_of_parse_resistances order table data (x : string) :
  x ∈ resistances (_parse_pokemon_data order table data)
  ↔ ∃ t entry, t ∈ json_types data ∧ table !! t = Some entry
               ∧ x ∈ entry_resistances entry.
Proof.
  unfold _parse_pokemon_data. cbn [resistances]. rewrite elem_of_py_list.
  destruct (resolve_loop_elem table (json_types data) (set_new, set_new) x) as [_ ->].
  simpl. split; [intros [H|H]; [by apply elem_of_empty in H|done] | by right].
Qed.

Lemma elem_of_parse_weaknesses order table data (x : string) :
  x ∈ weaknesses (_parse_pokemon_data order table data)
  ↔ (∃ t entry, t ∈ json_types data ∧ table !! t = Some entry
                ∧ x ∈ entry_weaknesses entry)
    ∧ x ∉ resistances (_parse_pokemon_data order table data).
Proof.
  rewrite elem_of_parse_resistances.
  unfold _parse_pokemon_data. cbn [weaknesses]. rewrite elem_of_py_list.
  cbn [contents]. rewrite elem_of_difference.
  destruct (resolve_loop_elem table (json_types data) (set_new, set_new) x) as [-> ->].
  simpl. split.
  - intros [[H|H] Hn]; [by apply elem_of_empty in H|]. split; [done|].
    intros Hr. apply Hn. by right.
  - intros [H Hn]. split; [by right|]. intros [Hr|Hr]; [by apply elem_of_empty in Hr|done].
Qed.

(** X1. A type name is a stored resistance exactly when some type of the
    record has a profile that lists it as a resistance; it is a stored
    weakness exactly when some type of the record has a profile that lists
    it as a weakness and it is not a stored resistance. *)
Theorem resolved_membership (order : SetOrder) (table : gmap string type_entry)
    (data : pokemon_json) (x : string) :
  let record := _parse_pokemon_data order table data in
  (x ∈ resistances record
   ↔ ∃ t entry, t ∈ json_types data ∧ table !! t = Some entry
                ∧ x ∈ entry_resistances entry)
  ∧ (x ∈ weaknesses record
     ↔ (∃ t entry, t ∈ json_types data ∧ table !! t = Some entry
                   ∧ x ∈ entry_weaknesses entry)
       ∧ x ∉ resistances record).
Proof.
  cbv zeta. split; [apply elem_of_parse_resistances | apply elem_of_parse_weaknesses].
Qed.

(** X2. The order and the repetition of the types of a record do not matter:
    two type lists with the same members resolve to the same weaknesses and
    the same resistances (as lists without duplicates, up to order). *)
Theorem resolve_ignores_type_order (order : SetOrder) (table : gmap string type_entry)
    (data : pokemon_json) (types1 types2 : list string) :
  (∀ t, t ∈ types1 ↔ t ∈ types2) →
  weaknesses (_parse_pokemon_data order table (with_types data types1))
    ≡ₚ weaknesses (_parse_pokemon_data order table (with_types data types2))
  ∧ resistances (_parse_pokemon_data order table (with_types data types1))
    ≡ₚ resistances (_parse_pokemon_data order table (with_types data types2)).
Proof.
  intros Hsame.
  assert (∀ x, x ∈ resistances (_parse_pokemon_data order table (with_types data types1))
               ↔ x ∈ resistances (_parse_pokemon_data order table (with_types data types2)))
    as Hres.
  { intros x. rewrite !elem_of_parse_resistances. cbn [with_types json_types].
    split; intros (t & e & Ht & He & Hx); exists t, e; (split; [by apply Hsame|done]). }
  split.
  - apply NoDup_Permutation; [apply NoDup_py_list..|]. intros x.
    rewrite !elem_of_parse_weaknesses, Hres. cbn [with_types json_types].
    split; intros [(t & e & Ht & He & Hx) Hn]; (split; [|done]);
      exists t, e; (split; [by apply Hsame|done]).
  - apply NoDup_Permutation; [apply NoDup_py_list..|]. done.
Qed.

Lemma resolve_ignores_type_order_witness :
  let data := {| json_name := "charizard"; json_types := []; json_stats := [] |} in
  (∀ t, t ∈ ["fire"; "flying"] ↔ t ∈ ["flying"; "fire"; "fire"])
  ∧ weaknesses (_parse_pokemon_data gset_order _get_simplified_type_chart
                  (with_types data ["fire"; "flying"]))
    ≡ₚ weaknesses (_parse_pokemon_data gset_order _get_simplified_type_chart
                     (with_types data ["flying"; "fire"; "fire"])).
Proof.
  cbv zeta. assert (∀ t : string, t ∈ ["fire"; "flying"] ↔ t ∈ ["flying"; "fire"; "fire"])
    as Hsame by set_solver.
  split; [exact Hsame|].
  apply (resolve_ignores_type_order gset_order _get_simplified_type_chart
           {| json_name := "charizard"; json_types := []; json_stats := [] |}
           ["fire"; "flying"] ["flying"; "fire"; "fire"] Hsame).
Defined.

(** X3. A record with the types [types1 ++ types2] is resolved from the two
    parts: its resistances are those of either part, and its weaknesses are
    the weaknesses of one part that the other part does not resist.  Adding
    types therefore never removes a resistance and only removes weaknesses
    that the added types resist. *)
Theorem resolve_app (order : SetOrder) (table : gmap string type_entry)
    (data : pokemon_json) (types1 types2 : list string) (x : string) :
  let both := _parse_pokemon_data order table (with_types data (types1 ++ types2)) in
  let part1 := _parse_pokemon_data order table (with_types data types1) in
  let part2 := _parse_pokemon_data order table (with_types data types2) in
  (x ∈ resistances both ↔ x ∈ resistances part1 ∨ x ∈ resistances part2)
  ∧ (x ∈ weaknesses both
     ↔ (x ∈ weaknesses part1 ∧ x ∉ resistances part2)
       ∨ (x ∈ weaknesses part2 ∧ x ∉ resistances part1)).
Proof.
  cbv zeta.
  assert (x ∈ resistances (_parse_pokemon_data order table (with_types data (types1 ++ types2)))
          ↔ x ∈ resistances (_parse_pokemon_data order table (with_types data types1))
            ∨ x ∈ resistances (_parse_pokemon_data order table (with_types data types2)))
    as Hres.
  { rewrite !elem_of_parse_resistances. cbn [with_types json_types]. split.
    - intros (t & e & [Ht|Ht]%elem_of_app & He & Hx); [left|right]; by exists t, e.
    - intros [(t & e & Ht & He & Hx)|(t & e & Ht & He & Hx)]; exists t, e;
        (split; [apply elem_of_app; tauto|done]). }
  split; [exact Hres|].
  rewrite !elem_of_parse_weaknesses, Hres.
  rewrite !elem_of_parse_resistances. cbn [with_types json_types]. split.
  - intros [(t & e & [Ht|Ht]%elem_of_app & He & Hx) Hn]; [left|right];
      (split; [split; [by exists t, e|]|]); tauto.
  - intros [[[(t & e & Ht & He & Hx) Hn1] Hn2]|[[(t & e & Ht & He & Hx) Hn2] Hn1]];
      (split; [exists t, e; (split; [apply elem_of_app; tauto|done])|tauto]).
Qed.

(** ** The static chart *)

Lemma chart_profiles_consistent :
  map_Forall (λ _ entry,
      NoDup (entry_weaknesses entry) ∧ NoDup (entry_resistances entry)
      ∧ Forall (λ x, x ∉ entry_resistances entry) (entry_weaknesses entry))
    _get_simplified_type_chart.
Proof. compute_done. Qed.

Lemma chart_pairs_have_weakness :
  map_Forall (λ t1 _,
      map_Forall (λ t2 _,
          (resolve_reference [t1; t2] _get_simplified_type_chart).1 ≠ ∅)
        _get_simplified_type_chart)
    _get_simplified_type_chart.
Proof. compute_done. Qed.

(** X4. The chart has 18 types; no profile lists a type name twice or as both
    a weakness and a resistance.  Hence a record with a single chart type has
    exactly the weaknesses and the resistances of that profile, and a record
    whose single type has no profile has none. *)
Theorem single_type_resolves_to_profile (order : SetOrder) (n t : string)
    (stats : list (string * Z)) :
  let record := _parse_pokemon_data order _get_simplified_type_chart
                  {| json_name := n; json_types := [t]; json_stats := stats |} in
  size _get_simplified_type_chart = 18%nat
  ∧ match _get_simplified_type_chart !! t with
    | Some entry =>
        weaknesses record ≡ₚ entry_weaknesses entry
        ∧ resistances record ≡ₚ entry_resistances entry
    | None => weaknesses record = [] ∧ resistances record = []
    end.
Proof.
  cbv zeta. split; [compute_done|].
  destruct (_get_simplified_type_chart !! t) as [entry|] eqn:Ht.
  - destruct (map_Forall_lookup_1 _ _ _ _ chart_profiles_consistent Ht)
      as (Hw & Hr & Hdisj).
    rewrite Forall_forall in Hdisj.
    assert (∀ x, x ∈ resistances (_parse_pokemon_data order _get_simplified_type_chart
                   {| json_name := n; json_types := [t]; json_stats := stats |})
                 ↔ x ∈ entry_resistances entry) as Hres.
    { intros x. rewrite elem_of_parse_resistances. cbn [json_types]. split.
      - intros (t' & e & ->%list_elem_of_singleton & He & Hx). congruence.
      - intros Hx. exists t, entry. split; [by apply list_elem_of_singleton|done]. }
    split.
    + apply NoDup_Permutation; [apply NoDup_py_list|done|]. intros x.
      rewrite elem_of_parse_weaknesses, Hres. cbn [json_types]. split.
      * intros [(t' & e & ->%list_elem_of_singleton & He & Hx) _]. congruence.
      * intros Hx. split; [|by apply Hdisj].
        exists t, entry. split; [by apply list_elem_of_singleton|done].
    + apply NoDup_Permutation; [apply NoDup_py_list|done|]. exact Hres.
  - split.
    + apply elem_of_nil_inv. intros x.
      rewrite elem_of_parse_weaknesses. cbn [json_types].
      intros [(t' & e & ->%list_elem_of_singleton & He & _) _]. congruence.
    + apply elem_of_nil_inv. intros x.
      rewrite elem_of_parse_resistances. cbn [json_types].
      intros (t' & e & ->%list_elem_of_singleton & He & _). congruence.
Qed.

Lemma weaknesses_nil_reference order table data :
  weaknesses (_parse_pokemon_data order table data) = [] →
  (resolve_reference (json_types data) table).1 = ∅.
Proof.
  intros Hnil. rewrite <- (parse_weaknesses_contents order table data), Hnil. done.
Qed.

Lemma reference_single_twice table (t : string) :
  resolve_reference [t] table = resolve_reference [t; t] table.
Proof.
  unfold resolve_reference. simpl. unfold reference_step.
  destruct (table !! t) as [entry|]; simpl; [|done]. f_equal; set_solver.
Qed.

Lemma known_types_have_weakness (order : SetOrder) (data : pokemon_json) :
  known_types _get_simplified_type_chart data →
  weaknesses (_parse_pokemon_data order _get_simplified_type_chart data) ≠ [].
Proof.
  unfold known_types. intros Hknown Hnil.
  apply weaknesses_nil_reference in Hnil.
  destruct (json_types data) as [|t1 [|t2 [|t3 ts]]]; [done| | |done].
  - destruct Hknown as [e1 He1]. rewrite reference_single_twice in Hnil.
    pose proof (map_Forall_lookup_1 _ _ _ _ chart_pairs_have_weakness He1) as H1.
    cbv beta in H1.
    exact (map_Forall_lookup_1 _ _ _ _ H1 He1 Hnil).
  - destruct Hknown as [[e1 He1] [e2 He2]].
    pose proof (map_Forall_lookup_1 _ _ _ _ chart_pairs_have_weakness He1) as H1.
    cbv beta in H1.
    exact (map_Forall_lookup_1 _ _ _ _ H1 He2 Hnil).
Qed.

(** X5. With the shipped chart every record with one or two known types has
    at least one weakness; so when the sample of a [PokemonAPI] object is
    not empty and every fetched record is of that kind, the analysis reports
    a mode. *)
Theorem known_types_give_mode (order : SetOrder)
    (http_pokemon : string → option pokemon_json)
    (http_type : string → option (list string)) (ty : string) :
  let responses := sample_responses http_pokemon http_type ty in
  responses ≠ [] →
  Forall (known_types _get_simplified_type_chart) responses →
  Forall (λ data, weaknesses (_parse_pokemon_data order _get_simplified_type_chart data) ≠ [])
    responses
  ∧ ∃ a mode,
      api_analyze_type_weaknesses order _get_simplified_type_chart http_pokemon http_type ty
        = Ok a
      ∧ most_common_weakness a = Some mode.
Proof.
  intros responses Hne Hknown. split.
  - eapply Forall_impl; [exact Hknown|]. intros data. apply known_types_have_weakness.
  - unfold api_analyze_type_weaknesses.
    destruct (analyze_mode (get_pokemon_by_type http_type)
                (get_pokemon_by_name order _get_simplified_type_chart http_pokemon) ty)
      as (a & Ha & _ & Hnone & _).
    { rewrite api_sample_records. apply Forall_NoDup_parse. }
    rewrite api_sample_records in Hnone.
    change (omap (λ n, http_pokemon (lower n))
              (take 10 (get_pokemon_by_type http_type ty))) with responses in Hnone.
    destruct (most_common_weakness a) as [mode|] eqn:Hmode; [by exists a, mode|].
    exfalso. destruct Hnone as [Hnil _]. specialize (Hnil eq_refl).
    destruct responses as [|data rest]; [done|].
    apply Forall_cons in Hknown as [Hd _].
    apply (known_types_have_weakness order data Hd).
    unfold weaknesses_met in Hnil. csimpl in Hnil.
    by apply app_eq_nil in Hnil as [? _].
Qed.

Lemma known_types_give_mode_witness :
  sample_responses fire_pokemon fire_names "fire" ≠ []
  ∧ Forall (known_types _get_simplified_type_chart)
      (sample_responses fire_pokemon fire_names "fire")
  ∧ ∃ a mode,
      api_analyze_type_weaknesses gset_order _get_simplified_type_chart
        fire_pokemon fire_names "fire" = Ok a
      ∧ most_common_weakness a = Some mode.
Proof.
  assert (sample_responses fire_pokemon fire_names "fire" ≠ []) as Hne by by vm_compute.
  assert (Forall (known_types _get_simplified_type_chart)
            (sample_responses fire_pokemon fire_names "fire")) as Hknown.
  { vm_compute. repeat constructor. by eexists. }
  split; [exact Hne|]. split; [exact Hknown|].
  apply (known_types_give_mode gset_order fire_pokemon fire_names "fire" Hne Hknown).
Defined.

(** ** The stats of a record *)

Lemma stats_loop_lookup (k : string) (stats : list (string * Z)) (m : gmap string Z) :
  (Forall (λ stat, stat_key stat ≠ k) stats → foldl stat_step m stats !! k = m !! k)
  ∧ (∀ pre n v post, stats = pre ++ (n, v) :: post → stat_key (n, v) = k →
       Forall (λ stat, stat_key stat ≠ k) post → foldl stat_step m stats !! k = Some v).
Proof.
  assert (∀ l m', Forall (λ stat, stat_key stat ≠ k) l →
                  foldl stat_step m' l !! k = m' !! k) as Hskip.
  { induction l as [|stat l IH]; intros m' Hl; [done|].
    apply Forall_cons in Hl as [Hstat Hl]. simpl. rewrite IH by done.
    unfold stat_step. apply lookup_insert_ne. done. }
  split; [apply Hskip|].
  intros pre n v post -> Hk Hpost. rewrite foldl_app. simpl.
  rewrite Hskip by done. unfold stat_step at 1. cbn [fst snd].
  unfold stat_key in Hk. cbn [fst] in Hk. rewrite Hk. apply lookup_insert_eq.
Qed.

Lemma stat_field_lookup order table data (k : string) (field : PokemonStats → Z) :
  (k, field) ∈ stat_fields →
  field (_parse_pokemon_data order table data)
  = default 0 (foldl stat_step ∅ (json_stats data) !! k).
Proof.
  unfold stat_fields. rewrite !elem_of_cons, elem_of_nil.
  intros [[= -> ->]|[[= -> ->]|[[= -> ->]|[[= -> ->]|[[= -> ->]|[[= -> ->]|[]]]]]]];
    reflexivity.
Qed.

(** X6. Each of the six stat fields of a parsed record is read under its key
    from the stats of the response, whose names are stored with every '-'
    replaced by '_': the field is 0 when no stat has that key, and otherwise
    the base stat of the last stat with that key. *)
Theorem parsed_stat_is_last_entry (order : SetOrder) (table : gmap string type_entry)
    (data : pokemon_json) (k : string) (field : PokemonStats → Z) :
  (k, field) ∈ stat_fields →
  let record := _parse_pokemon_data order table data in
  (Forall (λ stat, stat_key stat ≠ k) (json_stats data) → field record = 0)
  ∧ (∀ pre n v post, json_stats data = pre ++ (n, v) :: post → stat_key (n, v) = k →
       Forall (λ stat, stat_key stat ≠ k) post → field record = v).
Proof.
  intros Hfield record. subst record. rewrite (stat_field_lookup _ _ _ k field Hfield).
  destruct (stats_loop_lookup k (json_stats data) ∅) as [Hnone Hlast]. split.
  - intros Hno. by rewrite Hnone.
  - intros pre n v post Hstats Hk Hpost. by rewrite (Hlast pre n v post).
Qed.

(** A response with both spellings of one stat, and without "attack". *)
Lemma parsed_stat_is_last_entry_witness :
  let data := {| json_name := "bulbasaur"; json_types := ["grass"];
                 json_stats := [("hp", 45); ("special-attack", 65); ("special_attack", 70)] |} in
  let record := _parse_pokemon_data gset_order _get_simplified_type_chart data in
  ("special_attack", special_attack) ∈ stat_fields
  ∧ special_attack record = 70
  ∧ ("attack", attack) ∈ stat_fields
  ∧ attack record = 0.
Proof.
  cbv zeta.
  assert (("special_attack", special_attack) ∈ stat_fields) as Hsa
    by (unfold stat_fields; set_solver).
  assert (("attack", attack) ∈ stat_fields) as Hat
    by (unfold stat_fields; set_solver).
  split; [exact Hsa|]. split; [|split; [exact Hat|]].
  - apply (proj2 (parsed_stat_is_last_entry gset_order _get_simplified_type_chart
                    {| json_name := "bulbasaur"; json_types := ["grass"];
                       json_stats := [("hp", 45); ("special-attack", 65);
                                      ("special_attack", 70)] |}
                    "special_attack" special_attack Hsa)
             [("hp", 45); ("special-attack", 65)] "special_attack" 70 []).
    + reflexivity.
    + reflexivity.
    + constructor.
  - apply (proj1 (parsed_stat_is_last_entry gset_order _get_simplified_type_chart
                    {| json_name := "bulbasaur"; json_types := ["grass"];
                       json_stats := [("hp", 45); ("special-attack", 65);
                                      ("special_attack", 70)] |}
                    "attack" attack Hat)).
    repeat constructor; by vm_compute.
Defined.

(** ** The mode and the counts *)

Lemma percentage_steps :
  forallb (λ t, percentage_full t && forallb (λ c, percentage_increases c t) (seqZ 1 (t - 1)))
    (seqZ 1 10) = true.
Proof. vm_compute. reflexivity. Qed.

Lemma percentage_steps_at (t : Z) :
  1 <= t <= 10 →
  percentage t t = float_of_int 100
  ∧ ∀ c, 1 <= c < t → float_lt (percentage c t) (percentage (c + 1) t) = true.
Proof.
  intros Ht. pose proof percentage_steps as Htab. rewrite forallb_forall in Htab.
  assert (In t (seqZ 1 10)) as Hin by (apply list_elem_of_In, elem_of_seqZ; lia).
  specialize (Htab t Hin). apply andb_true_iff in Htab as [Hfull Hinc]. split.
  - unfold percentage_full in Hfull. by apply bool_decide_eq_true in Hfull.
  - intros c Hc. rewrite forallb_forall in Hinc. apply Hinc.
    apply list_elem_of_In, elem_of_seqZ. lia.
Qed.

(** Between 1 and ten records, the percentage is strictly increasing in the
    count. *)
Lemma percentage_strict_mono (c1 c2 t : Z) :
  1 <= c1 → c1 < c2 → c2 <= t → t <= 10 →
  float_lt (percentage c1 t) (percentage c2 t) = true.
Proof.
  intros H1 Hlt H2 Ht.
  destruct (percentage_steps_at t) as [_ Hstep]; [lia|].
  assert (∀ d : nat, c1 + 1 + Z.of_nat d <= t →
            float_lt (percentage c1 t) (percentage (c1 + 1 + Z.of_nat d) t) = true) as Hall.
  { induction d as [|d IH]; intros Hd.
    - replace (c1 + 1 + Z.of_nat 0) with (c1 + 1) by lia. apply Hstep. lia.
    - eapply float_lt_trans; [apply IH; lia|].
      replace (c1 + 1 + Z.of_nat (S d)) with (c1 + 1 + Z.of_nat d + 1) by lia.
      apply Hstep. lia. }
  replace c2 with (c1 + 1 + Z.of_nat (Z.to_nat (c2 - c1 - 1))) by lia.
  apply Hall. lia.
Qed.

Lemma float_lt_not_le (x y : float) : float_lt x y = true → float_le y x = false.
Proof.
  intros Hlt. apply not_true_is_false. revert Hlt.
  rewrite float_lt_key, float_le_key. intros (_ & _ & Hk) (_ & _ & Hn). done.
Qed.

Lemma float_lt_irrefl (x : float) : float_lt x x = false.
Proof.
  destruct (float_lt x x) eqn:Hxx; [|done]. by rewrite (float_lt_asym _ _ Hxx) in Hxx.
Qed.

Lemma occurrences_zero (w : string) (ws : list string) : w ∉ ws → occurrences w ws = 0.
Proof.
  induction ws as [|x ws IH]; [done|].
  rewrite not_elem_of_cons, occurrences_cons. intros [Hne Hnot].
  rewrite decide_False by done. rewrite IH by done. done.
Qed.

Lemma records_with_all (w : string) (records : list PokemonStats) :
  records_with w records = Z.of_nat (length records)
  ↔ Forall (λ r, w ∈ weaknesses r) records.
Proof.
  unfold records_with. induction records as [|r records IH]; [done|].
  rewrite filter_cons, Forall_cons.
  pose proof (length_filter (λ r, w ∈ weaknesses r) records) as Hle.
  destruct (decide (w ∈ weaknesses r)) as [Hin|Hnot]; simpl length.
  - split; [intros Heq|intros [_ Hall]].
    + split; [done|]. apply IH. lia.
    + apply IH in Hall. lia.
  - split; [intros Heq; lia|]. by intros [? _].
Qed.

(** X8. For a sample whose records list each weakness once, rounding does
    not disturb the ranking: the mode is a weakness that no other weakness
    beats in the number of records having it, and its percentage is exactly
    100.0 if and only if every record of the sample has it. *)
Theorem mode_is_most_frequent (gt : string → list string)
    (gn : string → option PokemonStats) (ty : string) :
  let records := sample_records gt gn ty in
  Forall (λ r, NoDup (weaknesses r)) records →
  ∃ a, analyze_type_weaknesses gt gn ty = Ok a
    ∧ ∀ w p, most_common_weakness a = Some (w, p) →
        w ∈ weaknesses_met records
        ∧ (∀ w', records_with w' records <= records_with w records)
        ∧ (p = float_of_int 100 ↔ Forall (λ r, w ∈ weaknesses r) records).
Proof.
  intros records Hnd.
  destruct (analyze_mode gt gn ty Hnd) as (a & Ha & _ & _ & Hmax). fold records in Hmax.
  exists a. split; [done|]. intros w p Hmode.
  destruct (Hmax w p Hmode) as (i & Hi & Hle & _).
  pose proof Ha as Hb. rewrite analyze_eq in Hb. cbv zeta in Hb. fold records in Hb.
  injection Hb as <-. cbn [weakness_percentages most_common_weakness] in *.
  pose proof (length_sample_records gt gn ty) as [H10 _]. fold records in H10.
  apply list_elem_of_lookup_2 in Hi.
  apply elem_of_percentages in Hi as [Hmet ->]; [|done].
  assert (1 <= records_with w records) as Hone
    by (rewrite <- occurrences_met by done; by apply occurrences_pos).
  pose proof (records_with_le w records) as Hwle.
  split; [done|]. split.
  - intros w'. destruct (decide (w' ∈ weaknesses_met records)) as [Hmet'|Hnot].
    + assert ((w', percentage (records_with w' records) (Z.of_nat (length records)))
              ∈ (λ item : string * Z, (item.1, percentage item.2 (Z.of_nat (length records))))
                  <$> foldl count_weakness [] (weaknesses_met records)) as Hin'
        by by apply elem_of_percentages.
      apply list_elem_of_lookup_1 in Hin' as [j Hj].
      specialize (Hle j _ Hj). cbn [snd] in Hle.
      destruct (decide (records_with w' records <= records_with w records)) as [|Hgt];
        [done|].
      rewrite (float_lt_not_le (percentage (records_with w records) (Z.of_nat (length records)))
                 (percentage (records_with w' records) (Z.of_nat (length records)))) in Hle;
        [done|].
      apply percentage_strict_mono; [lia|lia|apply records_with_le|lia].
    + assert (records_with w' records = 0) as ->; [|lia].
      rewrite <- occurrences_met by done. by apply occurrences_zero.
  - rewrite <- records_with_all.
    destruct (percentage_steps_at (Z.of_nat (length records))) as [Hfull _]; [lia|].
    split.
    + intros Hp. destruct (decide (records_with w records = Z.of_nat (length records)))
        as [|Hne]; [done|].
      assert (float_lt (percentage (records_with w records) (Z.of_nat (length records)))
                (percentage (Z.of_nat (length records)) (Z.of_nat (length records))) = true)
        as Hlt by (apply percentage_strict_mono; lia).
      rewrite Hp, Hfull, float_lt_irrefl in Hlt. done.
    + intros ->. done.
Qed.

(** In the two-record scenario the mode is water, which both records have. *)
Lemma mode_is_most_frequent_witness :
  let records := sample_records scenario_names scenario_source "fire" in
  ∃ a, analyze_type_weaknesses scenario_names scenario_source "fire" = Ok a
    ∧ ∀ w p, most_common_weakness a = Some (w, p) →
        w ∈ weaknesses_met records
        ∧ (∀ w', records_with w' records <= records_with w records)
        ∧ (p = float_of_int 100 ↔ Forall (λ r, w ∈ weaknesses r) records).
Proof.
  apply (mode_is_most_frequent scenario_names scenario_source "fire").
  vm_compute. repeat constructor; set_solver.
Defined.

(** ** Names that cannot be fetched *)

Lemma omap_filter_is_Some {A B : Type} (f : A → option B) (l : list A) :
  omap f (filter (λ x, is_Some (f x)) l) = omap f l.
Proof.
  induction l as [|x l IH]; [done|]. rewrite filter_cons.
  destruct (decide (is_Some (f x))) as [Hs|Hn]; csimpl.
  - by rewrite IH.
  - rewrite IH. destruct (f x) eqn:E; [|done]. exfalso. apply Hn. by eexists.
Qed.

Lemma omap_all_None {A B : Type} (f : A → option B) (l : list A) :
  Forall (λ x, f x = None) l → omap f l = [].
Proof. induction 1 as [|x l Hx _ IH]; csimpl; [done|]. by rewrite Hx. Qed.

(** X9. A name that cannot be fetched is skipped without aborting the batch:
    the analysis is the same as on the fetchable names among the first ten.
    A skipped name still uses one of the ten places of the sample: when the
    first ten names all fail, the result is the empty result whatever names
    follow. *)
Theorem failed_fetches_are_skipped (gt : string → list string)
    (gn : string → option PokemonStats) (ty : string) :
  analyze_type_weaknesses gt gn ty
  = analyze_type_weaknesses
      (λ _, filter (λ n, is_Some (gn n)) (take 10 (gt ty))) gn ty
  ∧ (∀ first later, gt ty = first ++ later → length first = 10%nat →
       Forall (λ n, gn n = None) first →
       analyze_type_weaknesses gt gn ty
       = Ok {| type := ty;
               analyzed_pokemon_count := 0;
               weakness_percentages := [];
               most_common_weakness := None |}).
Proof.
  split.
  - rewrite !analyze_eq. cbv zeta. unfold sample_records.
    rewrite (take_ge (filter _ _)).
    + by rewrite omap_filter_is_Some.
    + etrans; [apply length_filter|]. rewrite length_take. lia.
  - intros first later Hnames Hlen Hfail. rewrite analyze_eq. cbv zeta.
    unfold sample_records. rewrite Hnames, take_app_length' by done.
    by rewrite omap_all_None.
Qed.

(** Ten names that fail, followed by one that would succeed. *)
Lemma failed_fetches_are_skipped_witness :
  analyze_type_weaknesses (λ _, replicate 10 "missingno" ++ ["first"]) scenario_source "fire"
  = Ok {| type := "fire";
          analyzed_pokemon_count := 0;
          weakness_percentages := [];
          most_common_weakness := None |}.
Proof.
  apply (proj2 (failed_fetches_are_skipped
                  (λ _, replicate 10 "missingno" ++ ["first"]) scenario_source "fire")
           (replicate 10 "missingno") ["first"]).
  - reflexivity.
  - reflexivity.
  - repeat constructor.
Defined.

(** ** The report of an analysis *)

Lemma float_eq_refl (x : float) : is_nan x = false → float_eq x x = true.
Proof. intros Hx. by apply float_eq_key. Qed.

Lemma float_lt_not_eq (x y : float) : float_lt x y = true → float_eq x y = false.
Proof.
  intros Hlt. apply not_true_is_false. revert Hlt.
  rewrite float_lt_key, float_eq_key. unfold key_lt.
  intros (_ & _ & Hk) (_ & _ & He). rewrite He in Hk. lia.
Qed.

(** The first item of the descending stable sort is the item that [max]
    selects. *)
Lemma sorted_head_is_mode (l : list (string * float)) :
  Forall (λ item, is_nan item.2 = false) l →
  head (sorted_by_value_reverse l) = mode_of l.
Proof.
  intros Hnan. destruct l as [|first rest]; [done|].
  destruct (max_from_first_maximum first rest Hnan) as (i & Hi & Hmax & Hfirst).
  unfold mode_of. remember (max_from first rest) as m eqn:Hm. clear Hm.
  remember (first :: rest) as l eqn:Hl. clear Hl first rest.
  pose proof (sorted_by_value_reverse_perm l) as Hperm.
  pose proof (sorted_by_value_reverse_sorted l Hnan) as Hsorted.
  pose proof (ties_sorted_by_value_reverse m.2 l) as Hties.
  assert (is_nan m.2 = false) as Hmnan.
  { rewrite Forall_forall in Hnan. apply Hnan. by eapply list_elem_of_lookup_2. }
  destruct (sorted_by_value_reverse l) as [|h s] eqn:Hs.
  { apply Permutation_nil_l in Hperm. subst l. done. }
  simpl. f_equal.
  assert (float_eq h.2 m.2 = true) as Heq.
  { apply float_le_antisym.
    - assert (h ∈ l) as Hh by (rewrite <- Hperm; left).
      apply list_elem_of_lookup_1 in Hh as [j Hj]. by eapply Hmax.
    - assert (m ∈ h :: s) as Hmin by (rewrite Hperm; by eapply list_elem_of_lookup_2).
      apply elem_of_cons in Hmin as [->|Hmin].
      + apply float_le_key. repeat split; [done..|]. unfold key_lt. lia.
      + apply StronglySorted_cons in Hsorted as [Hall _].
        rewrite Forall_forall in Hall. by apply Hall. }
  assert (ties m.2 l = m :: ties m.2 (drop (S i) l)) as Hl.
  { rewrite <- (take_drop_middle l i m Hi) at 1. unfold ties.
    rewrite filter_app, filter_cons_True by by apply float_eq_refl.
    assert (filter (λ item : string * float, float_eq item.2 m.2 = true) (take i l) = [])
      as ->; [|done].
    apply elem_of_nil_inv. intros x [Hx Hin]%list_elem_of_filter.
    apply list_elem_of_lookup_1 in Hin as [j Hj].
    pose proof (lookup_lt_Some _ _ _ Hj) as Hjlt. rewrite length_take in Hjlt.
    rewrite lookup_take_lt in Hj by lia.
    rewrite (float_lt_not_eq _ _ (Hfirst j x ltac:(lia) Hj)) in Hx. done. }
  unfold ties in Hties, Hl. rewrite Hl, filter_cons_True in Hties by done.
  by injection Hties.
Qed.

(** X10. In the report of an analysis (of a sample whose records list each
    weakness once) the weakness distribution has one line for each entry of
    the percentage mapping, and its first line is the line of the most
    common weakness that the report names, when there is one. *)
Theorem report_leads_with_mode (gt : string → list string)
    (gn : string → option PokemonStats) (ty : string) :
  Forall (λ r, NoDup (weaknesses r)) (sample_records gt gn ty) →
  ∃ a, analyze_type_weaknesses gt gn ty = Ok a
    ∧ length (distribution_lines (weakness_percentages a))
      = length (weakness_percentages a)
    ∧ head (distribution_lines (weakness_percentages a))
      = distribution_line <$> most_common_weakness a
    ∧ findings_sections {| weakness_analysis := Some (weakness_data_of a) |}
      = ["- Analyzed " +:+ format_int (analyzed_pokemon_count a) +:+ " Pokémon specimens"]
        ++ most_common_sections (weakness_data_of a)
        ++ "- Weakness distribution:" :: distribution_lines (weakness_percentages a).
Proof.
  intros Hnd. eexists. split; [apply analyze_eq|]. cbv zeta.
  cbn [weakness_percentages most_common_weakness analyzed_pokemon_count].
  pose proof (length_sample_records gt gn ty) as [H10 _].
  pose proof (percentages_not_nan _ Hnd H10) as Hnan.
  split; [|split; [|done]].
  - unfold distribution_lines. rewrite length_fmap.
    by rewrite (sorted_by_value_reverse_perm _).
  - unfold distribution_lines. rewrite <- (sorted_head_is_mode _ Hnan).
    by destruct (sorted_by_value_reverse _).
Qed.

(** The report of the two-record scenario leads with water. *)
Lemma report_leads_with_mode_witness :
  ∃ a, analyze_type_weaknesses scenario_names scenario_source "fire" = Ok a
    ∧ most_common_weakness a = Some ("water", float_of_int 100)
    ∧ head (distribution_lines (weakness_percentages a)) = Some "  - Water: 100.0%".
Proof.
  destruct (report_leads_with_mode scenario_names scenario_source "fire")
    as (a & Ha & _ & Hhead & _).
  { vm_compute. repeat constructor; set_solver. }
  exists a. split; [exact Ha|].
  assert (most_common_weakness a = Some ("water", float_of_int 100)) as Hmode.
  { assert (analyze_type_weaknesses scenario_names scenario_source "fire"
            = Ok {| type := "fire"; analyzed_pokemon_count := 2;
                    weakness_percentages :=
                      [("water", float_of_int 100); ("ground", float_of_int 50)];
                    most_common_weakness := Some ("water", float_of_int 100) |}) as Hrun
      by (vm_compute; reflexivity).
    rewrite Hrun in Ha. by injection Ha as <-. }
  split; [exact Hmode|]. rewrite Hhead, Hmode. vm_compute. reflexivity.
Defined.

(** ** The charts *)

Lemma max_float_from_head (best : float) (rest : list float) :
  Forall (λ x, float_lt best x = false) rest → max_float_from best rest = best.
Proof.
  induction 1 as [|x rest Hx _ IH]; simpl; [done|]. by rewrite Hx.
Qed.

Lemma zip_fmap_pair {A B C : Type} (f : A → B) (g : A → C) (l : list A) :
  zip (f <$> l) (g <$> l) = (λ x, (f x, g x)) <$> l.
Proof. induction l as [|x l IH]; csimpl; [done|]. by rewrite IH. Qed.

(** X12. [plot_weakness_distribution] raises [ValueError] on an empty
    mapping, at the [max] that sets the y axis, before anything is saved.
    On a non-empty mapping without NaN it draws one bar for each entry, in
    descending order of percentage with ties in the order of the mapping,
    labelled with the title-cased weakness; the y axis ends at 1.1 times the
    height of the first bar, which no bar exceeds; the figure goes to the
    given path, or to [<type>_weakness_distribution.png] in the output
    directory, and that path is returned. *)
Theorem weakness_chart_bars (in_output_dir : string → string)
    (weakness_data : list (string * float)) (pokemon_type : string)
    (save_path : option string) :
  plot_weakness_distribution in_output_dir [] pokemon_type save_path = Raise ValueError
  ∧ (weakness_data ≠ [] →
     Forall (λ item, is_nan item.2 = false) weakness_data →
     ∃ chart top,
       plot_weakness_distribution in_output_dir weakness_data pokemon_type save_path
         = Ok chart
       ∧ zip (wc_bar_labels chart) (wc_bar_heights chart)
         = (λ item, (title item.1, item.2)) <$> sorted_by_value_reverse weakness_data
       ∧ length (wc_bar_heights chart) = length weakness_data
       ∧ StronglySorted (λ x y, float_le y x = true) (wc_bar_heights chart)
       ∧ head (wc_bar_heights chart) = Some top
       ∧ Forall (λ height, float_le height top = true) (wc_bar_heights chart)
       ∧ wc_y_limit chart = float_mul top float_1_1
       ∧ wc_saved_to chart
         = default (in_output_dir (pokemon_type +:+ "_weakness_distribution.png")) save_path).
Proof.
  split; [done|]. intros Hne Hnan.
  pose proof (sorted_by_value_reverse_perm weakness_data) as Hperm.
  pose proof (sorted_by_value_reverse_sorted weakness_data Hnan) as Hsorted.
  unfold plot_weakness_distribution.
  destruct (sorted_by_value_reverse weakness_data) as [|first rest] eqn:Hs.
  { apply Permutation_nil_l in Hperm. done. }
  assert (StronglySorted (λ x y : float, float_le y x = true)
            ((λ w : string * float, w.2) <$> first :: rest)) as Hheights.
  { clear -Hsorted. induction Hsorted as [|x l _ IH Hx]; csimpl; constructor; [done|].
    apply Forall_fmap. eapply Forall_impl; [exact Hx|]. done. }
  pose proof Hheights as Hall. csimpl in Hall.
  apply StronglySorted_cons in Hall as [Hall _].
  assert (max_float_from first.2 ((λ w : string * float, w.2) <$> rest) = first.2) as Hmax.
  { apply max_float_from_head. eapply Forall_impl; [exact Hall|].
    intros x Hx. cbv beta in Hx. destruct (float_lt first.2 x) eqn:Hlt; [|done].
    by rewrite (float_lt_not_le _ _ Hlt) in Hx. }
  csimpl. rewrite Hmax. eexists _, first.2. split; [reflexivity|].
  cbn [wc_bar_labels wc_bar_heights wc_y_limit wc_saved_to].
  split; [|split; [|split; [|split; [|split; [|split]]]]].
  - apply (zip_fmap_pair (λ w : string * float, title w.1) (λ w, w.2) (first :: rest)).
  - rewrite <- Hperm. simpl. by rewrite length_fmap.
  - exact Hheights.
  - done.
  - constructor; [|done].
    assert (is_nan first.2 = false) as Hf.
    { rewrite Forall_forall in Hnan. apply Hnan. rewrite <- Hperm. left. }
    apply float_le_key. repeat split; [done..|]. unfold key_lt. lia.
  - done.
  - by destruct save_path.
Qed.

(** A mapping with a tie, saved to the default path. *)
Lemma weakness_chart_bars_witness :
  ∃ chart,
    plot_weakness_distribution (λ n, "data/visualizations/" +:+ n)
      (weakness_percentages tied_result) "Fire" None = Ok chart
    ∧ wc_bar_labels chart = ["Water"; "Rock"; "Ground"]
    ∧ wc_y_limit chart = float_mul (float_of_int 100) float_1_1
    ∧ wc_saved_to chart = "data/visualizations/Fire_weakness_distribution.png".
Proof.
  destruct (proj2 (weakness_chart_bars (λ n, "data/visualizations/" +:+ n)
                     (weakness_percentages tied_result) "Fire" None))
    as (chart & top & Hrun & _).
  - discriminate.
  - vm_compute. repeat constructor.
  - exists chart. split; [exact Hrun|].
    assert (plot_weakness_distribution (λ n, "data/visualizations/" +:+ n)
              (weakness_percentages tied_result) "Fire" None
            = Ok {| wc_title := "Fire-type Pokémon Weakness Distribution";
                    wc_x_label := "Weakness Types";
                    wc_y_label := "Percentage of Pokémon Affected (%)";
                    wc_bar_labels := ["Water"; "Rock"; "Ground"];
                    wc_bar_heights := [float_of_int 100; float_of_int 50; float_of_int 50];
                    wc_y_limit := float_mul (float_of_int 100) float_1_1;
                    wc_bar_texts :=
                      [(float_add (float_of_int 100) float_0_5, "100.0%");
                       (float_add (float_of_int 50) float_0_5, "50.0%");
                       (float_add (float_of_int 50) float_0_5, "50.0%")];
                    wc_saved_to := "data/visualizations/Fire_weakness_distribution.png" |})
      as Hval by (vm_compute; reflexivity).
    rewrite Hval in Hrun. injection Hrun as <-. repeat split.
Defined.

Lemma dict_get_app_r {V : Type} (k : string) (pre d : list (string * V)) :
  k ∉ pre.*1 → dict_get k (pre ++ d) = dict_get k d.
Proof.
  induction pre as [|[k' v'] pre IH]; csimpl; [done|].
  rewrite not_elem_of_cons. intros [Hne Hnot]. rewrite decide_False by done. by apply IH.
Qed.

(** Looking up the first keys of a mapping gives its first values. *)
Lemma lookup_all_take (pre d : list (string * float)) (n : nat) :
  NoDup (pre ++ d).*1 → lookup_all (pre ++ d) (take n d.*1) = Some (take n d.*2).
Proof.
  revert pre n. induction d as [|[k v] d IH]; intros pre n Hnd.
  - csimpl. by rewrite !take_nil.
  - destruct n as [|n]; [done|]. csimpl. unfold dict_item.
    rewrite fmap_app in Hnd. csimpl in Hnd.
    apply NoDup_app in Hnd as (Hpre & Hdisj & Hd).
    rewrite dict_get_app_r by (intros Hin; apply (Hdisj k Hin); left).
    csimpl. rewrite decide_True by done. csimpl.
    specialize (IH (pre ++ [(k, v)]) n). rewrite <- app_assoc in IH. csimpl in IH.
    rewrite IH; [done|].
    rewrite fmap_app. csimpl. apply NoDup_app. split; [done|]. split; done.
Qed.

Lemma lookup_all_prefix (d : list (string * float)) (n : nat) :
  NoDup d.*1 → lookup_all d (take n d.*1) = Some (take n d.*2).
Proof. intros Hnd. by apply (lookup_all_take [] d n). Qed.

(** ** The example workflow *)

Section script_facts.
Context {A B : Type}.

Lemma outcome_bind (m : script A) (f : A → script B) :
  outcome (m ≫= f)
  = match outcome m with
    | inl e => inl e
    | inr a => outcome (f a)
    end.
Proof. unfold outcome, mbind, script_bind. by destruct m.2. Qed.

Lemma writes_bind (m : script A) (f : A → script B) :
  writes (m ≫= f)
  = match outcome m with
    | inl _ => writes m
    | inr a => writes m ++ writes (f a)
    end.
Proof.
  unfold writes, outcome, mbind, script_bind. destruct m.2; [done|].
  cbv zeta. cbn [fst]. by rewrite omap_app.
Qed.

End script_facts.

Lemma outcome_print (text : string) : outcome (print text) = inr tt.
Proof. done. Qed.

Lemma writes_print (text : string) : writes (print text) = [].
Proof. done. Qed.

Lemma outcome_for_each_print {A : Type} (f : A → string) (xs : list A) :
  outcome (for_each (λ x, print (f x)) xs) = inr tt
  ∧ writes (for_each (λ x, print (f x)) xs) = [].
Proof.
  induction xs as [|x xs [IH1 IH2]]; [done|]. cbn [for_each].
  rewrite outcome_bind, writes_bind, outcome_print, writes_print. done.
Qed.

Lemma collect_pokemon_spec order http_pokemon type_status (names : list string)
    (acc : list PokemonStats) :
  outcome (collect_pokemon order http_pokemon type_status names acc)
  = inr (acc ++ omap (get_pokemon_by_name order _get_simplified_type_chart http_pokemon) names)
  ∧ writes (collect_pokemon order http_pokemon type_status names acc) = [].
Proof.
  revert acc. induction names as [|n names IH]; intros acc.
  - simpl. by rewrite app_nil_r.
  - cbn [collect_pokemon]. rewrite outcome_bind, writes_bind, outcome_print, writes_print.
    rewrite load_type_effectiveness_chart. csimpl.
    destruct (get_pokemon_by_name order _get_simplified_type_chart http_pokemon n) as [p|].
    + destruct (IH (acc ++ [p])) as [-> ->]. by rewrite <- app_assoc.
    + apply IH.
Qed.

Lemma outcome_of_result_Ok {A : Type} (a : A) : outcome (of_result (Ok a)) = inr a.
Proof. done. Qed.

Lemma writes_of_result {A : Type} (r : result A) : writes (of_result r) = [].
Proof. by destruct r. Qed.

Lemma plot_weakness_distribution_Ok in_output_dir (first : string * float)
    (rest : list (string * float)) (pokemon_type : string) :
  ∃ chart,
    plot_weakness_distribution in_output_dir (first :: rest) pokemon_type None = Ok chart
    ∧ wc_saved_to chart = in_output_dir (pokemon_type +:+ "_weakness_distribution.png").
Proof.
  unfold plot_weakness_distribution.
  pose proof (sorted_by_value_reverse_perm (first :: rest)) as Hperm.
  destruct (sorted_by_value_reverse (first :: rest)) as [|x l].
  { by apply Permutation_nil_l in Hperm. }
  csimpl. eexists. split; reflexivity.
Qed.

Lemma int_truediv_nonzero (a b : Z) :
  b ≠ 0 → ∃ q, int_truediv a b = Ok q.
Proof. intros Hb. unfold int_truediv. rewrite decide_False by done. by eexists. Qed.

Lemma outcome_ret {A : Type} (a : A) : outcome (mret a : script A) = inr a.
Proof. done. Qed.

Lemma writes_ret {A : Type} (a : A) : writes (mret a : script A) = [].
Proof. done. Qed.

Lemma summary_chart_Some in_output_dir (wd : weakness_data) (percentages : list (string * float))
    (stats : option (list stats_entry)) :
  wd_weakness_percentages wd = Some percentages → NoDup percentages.*1 →
  ∃ chart,
    create_research_summary_chart in_output_dir
      {| summary_research := {| weakness_analysis := Some wd |}; pokemon_stats := stats |}
      None = Some chart
    ∧ summary_saved_to chart = in_output_dir "research_summary.png".
Proof.
  intros Hp Hnd. unfold create_research_summary_chart. cbn [summary_research weakness_analysis].
  rewrite Hp. csimpl. rewrite lookup_all_prefix by done. csimpl.
  eexists. split; reflexivity.
Qed.

Lemma outcome_write_file (path content : string) :
  outcome (write_file path content) = inr tt.
Proof. done. Qed.

Lemma writes_write_file (path content : string) :
  writes (write_file path content) = [(path, content)].
Proof. done. Qed.

Lemma outcome_of_result_Raise {A : Type} (e : exn) :
  outcome (of_result (Raise e : result A)) = inl (Builtin e).
Proof. done. Qed.

Lemma outcome_read_local_Some {A : Type} (variable : string) (a : A) :
  outcome (read_local variable (Some a)) = inr a.
Proof. done. Qed.

Lemma outcome_read_local_None {A : Type} (variable : string) :
  outcome (read_local variable (None : option A)) = inl (UnboundLocalError variable).
Proof. done. Qed.

Lemma writes_read_local {A : Type} (variable : string) (value : option A) :
  writes (read_local variable value) = [].
Proof. by destruct value. Qed.

Lemma int_truediv_no_rows (a : Z) :
  int_truediv a (Z.of_nat (length (@nil PokemonStats))) = Raise ZeroDivisionError.
Proof. done. Qed.

(** Evaluating the monadic steps of a run. *)
Ltac script_eval :=
  cbv [mbind script_bind mret script_ret print write_file of_result raise read_local
         fst snd outcome weakness_percentages most_common_weakness].

(** The run of the workflow, given the analysis and the records fetched. *)
Lemma workflow_run order http_pokemon http_type type_status in_output_dir
    plot_stats_comparison save_data_to_csv report_path (a : analysis)
    (rows : list PokemonStats) :
  api_analyze_type_weaknesses order _get_simplified_type_chart http_pokemon http_type "fire"
    = Ok a →
  omap (get_pokemon_by_name order _get_simplified_type_chart http_pokemon) example_names
    = rows →
  NoDup (weakness_percentages a).*1 →
  let run := fire_type_weakness_analysis order http_pokemon http_type type_status
               in_output_dir plot_stats_comparison save_data_to_csv report_path in
  outcome run
  = match rows with
    | [] => inl (Builtin ZeroDivisionError)
    | _ :: _ =>
        match weakness_percentages a with
        | [] => inl (UnboundLocalError "weakness_chart_path")
        | _ :: _ =>
            inr {| wr_analysis_results := a;
                   wr_pokemon_data := rows;
                   wr_weakness_chart := in_output_dir "Fire_weakness_distribution.png";
                   wr_stats_chart :=
                     plot_stats_comparison rows "Fire-type Pokémon Stats Comparison";
                   wr_summary_chart := in_output_dir "research_summary.png";
                   wr_report_path := report_path;
                   wr_data_csv := save_data_to_csv rows "fire_pokemon_analysis" |}
        end
    end
  ∧ writes run
    = [(report_path, generate_report {| weakness_analysis := Some (weakness_data_of a) |})].
Proof.
  intros Ha Hrows Hkeys run. subst run. unfold fire_type_weakness_analysis.
  cbv zeta. rewrite load_type_effectiveness_chart, Ha.
  destruct (collect_pokemon_spec order http_pokemon type_status example_names [])
    as [Hc1 Hc2].
  rewrite app_nil_l, Hrows in Hc1. unfold example_names in Hc1, Hc2.
  destruct (outcome_for_each_print (λ requirement : string, "  • " +:+ requirement)
              (data_requirements
                 (create_research_plan "analyze all Fire-type Pokémon weaknesses")))
    as [Hf1 Hf2].
  destruct (collect_pokemon order http_pokemon type_status
              ["charmander"; "vulpix"; "growlithe"; "ponyta"; "magmar"] [])
    as [collect_events collect_out].
  destruct (for_each (λ requirement : string, print ("  • " +:+ requirement))
              (data_requirements
                 (create_research_plan "analyze all Fire-type Pokémon weaknesses")))
    as [plan_events plan_out].
  unfold outcome, writes in Hc1, Hc2, Hf1, Hf2. cbn [fst snd] in Hc1, Hc2, Hf1, Hf2.
  subst collect_out plan_out.
  destruct (summary_chart_Some in_output_dir (weakness_data_of a) (weakness_percentages a)
              (Some (stats_entry_of <$> rows)) eq_refl Hkeys) as (summary & Hsum & Hsaved).
  clear Ha Hrows Hkeys.
  destruct a as [a_type a_count percentages mode].
  cbn [weakness_percentages] in Hsum.
  assert (∀ x : Z, ∃ q, int_truediv x (Z.of_nat (length rows)) = Ok q ∨ rows = [])
    as Hdiv.
  { intros x. destruct rows as [|row rows']; [by exists (float_of_int 0); right|].
    destruct (int_truediv_nonzero x (Z.of_nat (length (row :: rows')))) as [q Hq];
      [simpl; lia|]. exists q. by left. }
  destruct (Hdiv (foldr Z.add 0 (hp <$> rows))) as [q_hp Hq_hp].
  destruct (Hdiv (foldr Z.add 0 (attack <$> rows))) as [q_attack Hq_attack].
  clear Hdiv.
  assert (∀ events : list event, ∀ out : py_error + workflow_result,
            writes (events, out)
            = omap (λ e, match e with
                         | WriteFile path content => Some (path, content)
                         | Print _ => None
                         end) events) as Hwrites by done.
  destruct rows as [|row rows']; destruct percentages as [|first rest];
    destruct mode as [[mode_type mode_percentage]|];
    try (destruct Hq_hp as [Hq_hp|?]; [|done]);
    try (destruct Hq_attack as [Hq_attack|?]; [|done]);
    try (destruct (plot_weakness_distribution_Ok in_output_dir first rest "Fire")
           as (chart & Hplot & Hpath));
    script_eval; rewrite ?Hplot, ?Hsum; script_eval;
    rewrite ?int_truediv_no_rows, ?Hq_hp; script_eval; rewrite ?Hq_attack; script_eval;
    rewrite Hwrites, !omap_app, Hf2, Hc2, ?Hpath, ?Hsaved; (split; reflexivity).
Qed.

(** X14. The example workflow, for base stats below 2^50 in absolute value
    (where [int_truediv] is Python's division).  The report file is written
    once, with the report of the analysis, in every run.  The run then ends
    with [ZeroDivisionError], at the average HP, when none of the five names
    could be fetched; with [UnboundLocalError] on [weakness_chart_path] when
    some were fetched but the analysis has an empty percentage mapping, the
    weakness chart not having been drawn; and otherwise it returns the
    analysis, the fetched records and the five paths. *)
Theorem workflow_outcome (order : SetOrder) (http_pokemon : string → option pokemon_json)
    (http_type : string → option (list string)) (type_status : option Z)
    (in_output_dir : string → string)
    (plot_stats_comparison save_data_to_csv : list PokemonStats → string → string)
    (report_path : string) :
  let rows := omap (get_pokemon_by_name order _get_simplified_type_chart http_pokemon)
                example_names in
  let run := fire_type_weakness_analysis order http_pokemon http_type type_status
               in_output_dir plot_stats_comparison save_data_to_csv report_path in
  Forall (λ row, Z.abs (hp row) < 2 ^ 50 ∧ Z.abs (attack row) < 2 ^ 50) rows →
  ∃ a,
    api_analyze_type_weaknesses order _get_simplified_type_chart http_pokemon http_type
      "fire" = Ok a
    ∧ writes run
      = [(report_path, generate_report {| weakness_analysis := Some (weakness_data_of a) |})]
    ∧ (rows = [] → outcome run = inl (Builtin ZeroDivisionError))
    ∧ (rows ≠ [] → weakness_percentages a = [] →
       outcome run = inl (UnboundLocalError "weakness_chart_path"))
    ∧ (rows ≠ [] → weakness_percentages a ≠ [] →
       outcome run
       = inr {| wr_analysis_results := a;
                wr_pokemon_data := rows;
                wr_weakness_chart := in_output_dir "Fire_weakness_distribution.png";
                wr_stats_chart :=
                  plot_stats_comparison rows "Fire-type Pokémon Stats Comparison";
                wr_summary_chart := in_output_dir "research_summary.png";
                wr_report_path := report_path;
                wr_data_csv := save_data_to_csv rows "fire_pokemon_analysis" |}).
Proof.
  intros rows run _.
  assert (∃ a, api_analyze_type_weaknesses order _get_simplified_type_chart http_pokemon
                 http_type "fire" = Ok a
               ∧ NoDup (weakness_percentages a).*1) as (a & Ha & Hkeys).
  { unfold api_analyze_type_weaknesses. rewrite analyze_eq. cbv zeta.
    eexists. split; [reflexivity|]. cbn [weakness_percentages].
    rewrite percentages_keys, tally_keys_first_seen. apply NoDup_first_seen. }
  exists a. split; [exact Ha|].
  destruct (workflow_run order http_pokemon http_type type_status in_output_dir
              plot_stats_comparison save_data_to_csv report_path a rows Ha eq_refl Hkeys)
    as [Hout Hwrites].
  fold run in Hout, Hwrites. split; [exact Hwrites|]. rewrite Hout.
  split; [by intros ->|]. split.
  - intros Hrows Hp. destruct rows; [done|]. by rewrite Hp.
  - intros Hrows Hp. destruct rows; [done|]. by destruct (weakness_percentages a).
Qed.

(** The five names fetched as fire-type records with 39 HP, but a failing
    type listing: the run ends with [UnboundLocalError]. *)
Lemma workflow_outcome_witness :
  let run := fire_type_weakness_analysis gset_order fire_pokemon (λ _, None) (Some 200)
               (λ n, "data/visualizations/" +:+ n) (λ _ _, "stats.png") (λ _ _, "data.csv")
               "report.md" in
  Forall (λ row, Z.abs (hp row) < 2 ^ 50 ∧ Z.abs (attack row) < 2 ^ 50)
    (omap (get_pokemon_by_name gset_order _get_simplified_type_chart fire_pokemon)
       example_names)
  ∧ outcome run = inl (UnboundLocalError "weakness_chart_path")
  ∧ length (writes run) = 1%nat.
Proof.
  cbv zeta.
  assert (Forall (λ row, Z.abs (hp row) < 2 ^ 50 ∧ Z.abs (attack row) < 2 ^ 50)
            (omap (get_pokemon_by_name gset_order _get_simplified_type_chart fire_pokemon)
               example_names)) as Hbound by compute_done.
  split; [exact Hbound|].
  destruct (workflow_outcome gset_order fire_pokemon (λ _, None) (Some 200)
              (λ n, "data/visualizations/" +:+ n) (λ _ _, "stats.png") (λ _ _, "data.csv")
              "report.md" Hbound) as (a & Ha & Hwrites & _ & Hunbound & _).
  split.
  - apply Hunbound.
    + vm_compute. discriminate.
    + assert (api_analyze_type_weaknesses gset_order _get_simplified_type_chart
                fire_pokemon (λ _, None) "fire"
              = Ok {| type := "fire"; analyzed_pokemon_count := 0;
                      weakness_percentages := []; most_common_weakness := None |}) as Hrun
        by (vm_compute; reflexivity).
      rewrite Hrun in Ha. injection Ha as <-. reflexivity.
  - rewrite Hwrites. reflexivity.
Defined.

(** ** The analysis over the JSON documents *)

Section script_outcomes.
Context {A B : Type}.

Lemma outcome_bind_inr (m : script A) (f : A → script B) (a : A) :
  outcome m = inr a → outcome (m ≫= f) = outcome (f a).
Proof. intros Hm. by rewrite outcome_bind, Hm. Qed.

Lemma outcome_bind_inl (m : script A) (f : A → script B) (e : py_error) :
  outcome m = inl e → outcome (m ≫= f) = inl e.
Proof. intros Hm. by rewrite outcome_bind, Hm. Qed.

Lemma outcome_bind_inv (m : script A) (f : A → script B) (e : py_error) :
  outcome (m ≫= f) = inl e →
  outcome m = inl e ∨ ∃ a, outcome m = inr a ∧ outcome (f a) = inl e.
Proof.
  rewrite outcome_bind. destruct (outcome m) as [e'|a]; [intros [= ->]; by left|].
  intros He. right. by exists a.
Qed.

End script_outcomes.

Lemma shape_errors_ret {A : Type} (a : A) : shape_errors_only (mret a : script A).
Proof. intros e. discriminate. Qed.

Lemma shape_errors_print (text : string) : shape_errors_only (print text).
Proof. intros e. discriminate. Qed.

Lemma shape_errors_bind {A B : Type} (m : script A) (f : A → script B) :
  shape_errors_only m → (∀ a, outcome m = inr a → shape_errors_only (f a)) →
  shape_errors_only (m ≫= f).
Proof.
  intros Hm Hf e [He|(a & Ha & He)]%outcome_bind_inv; [by apply Hm|by apply (Hf a)].
Qed.

Lemma shape_errors_subscript (v : Raw.value) (key : string) :
  shape_errors_only (Raw.subscript v key).
Proof.
  intros e. unfold shape_error. destruct v; simpl; try (intros [= <-]; tauto).
  destruct (dict_get key items); [discriminate|]. intros [= <-]. tauto.
Qed.

Lemma shape_errors_iterate (v : Raw.value) : shape_errors_only (Raw.iterate v).
Proof.
  intros e. unfold shape_error. destruct v; simpl; try discriminate; intros [= <-]; tauto.
Qed.

Lemma shape_errors_replace (v : Raw.value) : shape_errors_only (Raw.replace v).
Proof.
  intros e. unfold shape_error. destruct v; simpl; try discriminate; intros [= <-]; tauto.
Qed.

Lemma shape_errors_comprehension {A B : Type} (f : A → script B) (xs : list A) :
  (∀ x, shape_errors_only (f x)) → shape_errors_only (Raw.comprehension f xs).
Proof.
  intros Hf. induction xs as [|x xs IH]; [apply shape_errors_ret|].
  cbn [Raw.comprehension]. apply shape_errors_bind; [apply Hf|]. intros y _.
  apply shape_errors_bind; [apply IH|]. intros ys _. apply shape_errors_ret.
Qed.

Lemma shape_errors_for_fold {A S : Type} (body : S → A → script S) (xs : list A) (st : S) :
  (∀ st x, shape_errors_only (body st x)) → shape_errors_only (Raw.for_fold body xs st).
Proof.
  intros Hbody. revert st. induction xs as [|x xs IH]; intros st; [apply shape_errors_ret|].
  cbn [Raw.for_fold]. apply shape_errors_bind; [apply Hbody|]. intros st' _. apply IH.
Qed.


Lemma shape_errors_resolve_step table (acc : py_set * py_set) (ptype : Raw.value) :
  shape_errors_only (Raw.resolve_step table acc ptype).
Proof.
  intros e. unfold shape_error.
  destruct ptype; simpl; try discriminate; intros [= <-]; tauto.
Qed.

Ltac solve_shape_errors :=
  repeat first
    [ apply shape_errors_ret | apply shape_errors_resolve_step | apply shape_errors_print | apply shape_errors_subscript
    | apply shape_errors_iterate | apply shape_errors_replace
    | apply shape_errors_bind; [|intros ? _]
    | apply shape_errors_comprehension; intros ?
    | apply shape_errors_for_fold; intros ? ? ].

Lemma shape_errors_parse order table (data : Raw.value) :
  shape_errors_only (Raw._parse_pokemon_data order table data).
Proof.
  unfold Raw._parse_pokemon_data, Raw.stat_step. solve_shape_errors.
Qed.

Lemma shape_errors_get_pokemon_by_name order table session_get (pokemon_name : Raw.value) :
  shape_errors_only (Raw.get_pokemon_by_name order table session_get pokemon_name).
Proof.
  unfold Raw.get_pokemon_by_name.
  destruct pokemon_name as [| | | |s| |];
    try (intros e [= <-]; unfold shape_error; tauto).
  destruct (session_get _) as [message|status_code [data|message]];
    repeat case_decide; solve_shape_errors.
Qed.

Lemma shape_errors_get_pokemon_by_type session_get (pokemon_type : string) :
  shape_errors_only (Raw.get_pokemon_by_type session_get pokemon_type).
Proof.
  unfold Raw.get_pokemon_by_type.
  destruct (session_get _) as [message|status_code [data|message]];
    repeat case_decide; solve_shape_errors.
Qed.



(** *** Bodies of the documented shape *)

Lemma outcome_subscript (v x : Raw.value) (key : string) :
  Raw.field key v = Some x → outcome (Raw.subscript v key) = inr x.
Proof. destruct v; try discriminate. simpl. by intros ->. Qed.

Lemma as_str_Some (v : Raw.value) (s : string) : Raw.as_str v = Some s → v = Raw.JStr s.
Proof. destruct v; try discriminate. by intros [= ->]. Qed.

Lemma as_int_Some (v : Raw.value) (n : Z) : Raw.as_int v = Some n → v = Raw.JInt n.
Proof. destruct v; try discriminate. by intros [= ->]. Qed.

Lemma as_list_Some (v : Raw.value) (items : list Raw.value) :
  Raw.as_list v = Some items → v = Raw.JList items.
Proof. destruct v; try discriminate. by intros [= ->]. Qed.

Lemma outcome_entry_name (key : string) (entry : Raw.value) (s : string) :
  Raw.entry_name key entry = Some s →
  outcome (inner ← Raw.subscript entry key; Raw.subscript inner "name") = inr (Raw.JStr s).
Proof.
  unfold Raw.entry_name. intros Hentry.
  destruct (Raw.field key entry) as [inner|] eqn:Hinner; [|done]. csimpl in Hentry.
  destruct (Raw.field "name" inner) as [n|] eqn:Hn; [|done]. csimpl in Hentry.
  apply as_str_Some in Hentry as ->.
  rewrite (outcome_bind_inr _ _ inner) by by apply outcome_subscript.
  by apply outcome_subscript.
Qed.

Lemma outcome_comprehension_names (key : string) (entries : list Raw.value)
    (names : list string) :
  mapM (Raw.entry_name key) entries = Some names →
  outcome (Raw.comprehension
             (λ entry, inner ← Raw.subscript entry key; Raw.subscript inner "name") entries)
  = inr (Raw.JStr <$> names).
Proof.
  revert names. induction entries as [|entry entries IH]; intros names.
  - by intros [= <-].
  - csimpl. destruct (Raw.entry_name key entry) as [s|] eqn:Hentry; [|done].
    destruct (mapM (Raw.entry_name key) entries) as [names'|]; [|done].
    intros [= <-]. csimpl.
    rewrite (outcome_bind_inr _ _ (Raw.JStr s)) by by apply outcome_entry_name.
    by rewrite (outcome_bind_inr _ _ (Raw.JStr <$> names')) by by apply IH.
Qed.

Lemma outcome_stat_step (stats : gmap string Z) (stat : Raw.value) (entry : string * Z) :
  Raw.stat_entry stat = Some entry →
  outcome (Raw.stat_step (Raw.JInt <$> stats) stat) = inr (Raw.JInt <$> stat_step stats entry).
Proof.
  unfold Raw.stat_entry, Raw.stat_step. intros Hentry.
  destruct (Raw.field "stat" stat) as [inner|] eqn:Hinner; [|done]. csimpl in Hentry.
  destruct (Raw.field "name" inner) as [n|] eqn:Hn; [|done]. csimpl in Hentry.
  destruct (Raw.as_str n) as [stat_name|] eqn:Hname; [|done]. csimpl in Hentry.
  destruct (Raw.field "base_stat" stat) as [base|] eqn:Hbase; [|done]. csimpl in Hentry.
  destruct (Raw.as_int base) as [base_stat|] eqn:Hint; [|done]. csimpl in Hentry.
  injection Hentry as <-. apply as_str_Some in Hname as ->. apply as_int_Some in Hint as ->.
  rewrite (outcome_bind_inr _ _ (replace_char "-" "_" stat_name)).
  - rewrite (outcome_bind_inr _ _ (Raw.JInt base_stat)) by by apply outcome_subscript.
    unfold stat_step. cbn [fst snd]. by rewrite fmap_insert.
  - rewrite (outcome_bind_inr _ _ inner) by by apply outcome_subscript.
    by rewrite (outcome_bind_inr _ _ (Raw.JStr stat_name)) by by apply outcome_subscript.
Qed.

Lemma outcome_stats_loop (entries : list Raw.value) (typed : list (string * Z))
    (stats : gmap string Z) :
  mapM Raw.stat_entry entries = Some typed →
  outcome (Raw.for_fold Raw.stat_step entries (Raw.JInt <$> stats))
  = inr (Raw.JInt <$> foldl stat_step stats typed).
Proof.
  revert typed stats. induction entries as [|stat entries IH]; intros typed stats.
  - by intros [= <-].
  - csimpl. destruct (Raw.stat_entry stat) as [entry|] eqn:Hentry; [|done].
    destruct (mapM Raw.stat_entry entries) as [typed'|]; [|done].
    intros [= <-]. csimpl.
    rewrite (outcome_bind_inr _ _ (Raw.JInt <$> stat_step stats entry))
      by by apply outcome_stat_step.
    by apply IH.
Qed.

Lemma outcome_resolve_loop table (type_names : list string) (acc : py_set * py_set) :
  outcome (Raw.for_fold (Raw.resolve_step table) (Raw.JStr <$> type_names) acc)
  = inr (foldl (resolve_step table) acc type_names).
Proof.
  revert acc. induction type_names as [|t type_names IH]; intros acc; [done|].
  rewrite fmap_cons. cbn [Raw.for_fold].
  rewrite (outcome_bind_inr _ _ (resolve_step table acc t)) by done. apply IH.
Qed.

(** On a body of the documented shape the parser raises nothing and builds
    the record of the typed code. *)
Lemma parse_refines order table (data : Raw.value) (typed : pokemon_json) :
  Raw.typed_pokemon data = Some typed →
  outcome (Raw._parse_pokemon_data order table data)
  = inr (raw_record (_parse_pokemon_data order table typed)).
Proof.
  unfold Raw.typed_pokemon, Raw._parse_pokemon_data. intros Htyped.
  destruct (Raw.field "name" data) as [n|] eqn:Hn; [|done]. csimpl in Htyped.
  destruct (Raw.as_str n) as [pokemon_name|] eqn:Hname; [|done]. csimpl in Htyped.
  destruct (Raw.field "types" data) as [ts|] eqn:Hts; [|done]. csimpl in Htyped.
  destruct (Raw.as_list ts) as [type_entries|] eqn:Htype_entries; [|done]. csimpl in Htyped.
  destruct (mapM (Raw.entry_name "type") type_entries) as [type_names|] eqn:Htypes; [|done]. csimpl in Htyped.
  destruct (Raw.field "stats" data) as [ss|] eqn:Hss; [|done]. csimpl in Htyped.
  destruct (Raw.as_list ss) as [stat_entries|] eqn:Hstat_entries; [|done]. csimpl in Htyped.
  destruct (mapM Raw.stat_entry stat_entries) as [stats|] eqn:Hstats; [|done]. csimpl in Htyped.
  injection Htyped as <-.
  apply as_str_Some in Hname as ->. apply as_list_Some in Htype_entries as ->.
  apply as_list_Some in Hstat_entries as ->.
  rewrite (outcome_bind_inr _ _ (Raw.JStr pokemon_name)) by by apply outcome_subscript.
  rewrite (outcome_bind_inr _ _ (Raw.JStr <$> type_names)).
  2:{ rewrite (outcome_bind_inr _ _ (Raw.JList type_entries)) by by apply outcome_subscript.
      rewrite (outcome_bind_inr _ _ type_entries) by done.
      by apply outcome_comprehension_names. }
  rewrite (outcome_bind_inr _ _ (Raw.JInt <$> foldl stat_step ∅ stats)).
  2:{ rewrite (outcome_bind_inr _ _ (Raw.JList stat_entries)) by by apply outcome_subscript.
      rewrite (outcome_bind_inr _ _ stat_entries) by done.
      rewrite <-(fmap_empty (M:=gmap string) Raw.JInt). by apply outcome_stats_loop. }
  rewrite (outcome_bind_inr _ _ _ (outcome_resolve_loop table type_names (set_new, set_new))).
  unfold raw_record, _parse_pokemon_data. cbn [json_name json_types json_stats name types hp
    attack defense special_attack special_defense speed weaknesses resistances].
  rewrite !lookup_fmap.
  by repeat match goal with
            | |- context [foldl stat_step ∅ stats !! ?k] =>
                destruct (foldl stat_step ∅ stats !! k)
            end.
Qed.

Lemma outcome_get_pokemon_by_name order table session_get (pokemon_name : string) :
  Raw.absent_or_typed Raw.typed_pokemon
    (session_get (Raw.BASE_URL +:+ "/pokemon/" +:+ lower pokemon_name)) →
  outcome (Raw.get_pokemon_by_name order table session_get (Raw.JStr pokemon_name))
  = inr (raw_record
           <$> get_pokemon_by_name order table (Raw.http_pokemon session_get) pokemon_name).
Proof.
  unfold Raw.absent_or_typed, Raw.get_pokemon_by_name, get_pokemon_by_name, Raw.http_pokemon.
  destruct (session_get _) as [message|status_code [data|message]]; cbn [Raw.decoded];
    [done| |by destruct (decide (status_code = 200))].
  destruct (decide (status_code = 200)) as [_|_]; [|done].
  intros [typed Htyped]. csimpl. rewrite Htyped.
  by rewrite (outcome_bind_inr _ _ _ (parse_refines order table data typed Htyped)).
Qed.

Lemma outcome_get_pokemon_by_type session_get (pokemon_type : string) :
  Raw.absent_or_typed Raw.typed_names
    (session_get (Raw.BASE_URL +:+ "/type/" +:+ lower pokemon_type)) →
  outcome (Raw.get_pokemon_by_type session_get pokemon_type)
  = inr (Raw.JStr <$> get_pokemon_by_type (Raw.http_type session_get) pokemon_type).
Proof.
  unfold Raw.absent_or_typed, Raw.get_pokemon_by_type, get_pokemon_by_type, Raw.http_type.
  destruct (session_get _) as [message|status_code [data|message]]; cbn [Raw.decoded];
    [done| |by destruct (decide (status_code = 200))].
  destruct (decide (status_code = 200)) as [_|_]; [|done].
  intros [names Hnames]. csimpl. rewrite Hnames. unfold Raw.typed_names in Hnames.
  destruct (Raw.field "pokemon" data) as [ps|] eqn:Hps; [|done]. csimpl in Hnames.
  destruct (Raw.as_list ps) as [entries|] eqn:Hentries; [|done]. csimpl in Hnames.
  apply as_list_Some in Hentries as ->.
  rewrite (outcome_bind_inr _ _ (Raw.JList entries)) by by apply outcome_subscript.
  rewrite (outcome_bind_inr _ _ entries) by done.
  by apply outcome_comprehension_names.
Qed.






(** *** What the lookups print *)

Lemma quiet_ret {A : Type} (a : A) : quiet (mret a : script A).
Proof. done. Qed.

Lemma quiet_raise {A : Type} (e : py_error) : quiet (raise e : script A).
Proof. done. Qed.

Lemma quiet_bind {A B : Type} (m : script A) (f : A → script B) :
  quiet m → (∀ a, quiet (f a)) → quiet (m ≫= f).
Proof.
  unfold quiet, mbind, script_bind. intros Hm Hf. destruct m.2 as [e|a]; [done|].
  cbv zeta. cbn [fst]. by rewrite Hm, Hf.
Qed.

Lemma quiet_subscript (v : Raw.value) (key : string) : quiet (Raw.subscript v key).
Proof. destruct v; try done. simpl. by destruct (dict_get key items). Qed.

Lemma quiet_iterate (v : Raw.value) : quiet (Raw.iterate v).
Proof. by destruct v. Qed.

Lemma quiet_replace (v : Raw.value) : quiet (Raw.replace v).
Proof. by destruct v. Qed.

Lemma quiet_resolve_step table (acc : py_set * py_set) (ptype : Raw.value) :
  quiet (Raw.resolve_step table acc ptype).
Proof. by destruct ptype. Qed.

Lemma quiet_comprehension {A B : Type} (f : A → script B) (xs : list A) :
  (∀ x, quiet (f x)) → quiet (Raw.comprehension f xs).
Proof.
  intros Hf. induction xs as [|x xs IH]; [done|].
  cbn [Raw.comprehension]. apply quiet_bind; [apply Hf|]. intros y.
  apply quiet_bind; [apply IH|]. intros ys. apply quiet_ret.
Qed.

Lemma quiet_for_fold {A S : Type} (body : S → A → script S) (xs : list A) (st : S) :
  (∀ st x, quiet (body st x)) → quiet (Raw.for_fold body xs st).
Proof.
  intros Hbody. revert st. induction xs as [|x xs IH]; intros st; [done|].
  cbn [Raw.for_fold]. apply quiet_bind; [apply Hbody|]. apply IH.
Qed.

Ltac solve_quiet :=
  repeat first
    [ apply quiet_ret | apply quiet_raise | apply quiet_resolve_step
    | apply quiet_subscript | apply quiet_iterate | apply quiet_replace
    | apply quiet_bind; [|intros ?]
    | apply quiet_comprehension; intros ?
    | apply quiet_for_fold; intros ? ? ].

(** The parser prints nothing. *)
Lemma quiet_parse order table (data : Raw.value) :
  quiet (Raw._parse_pokemon_data order table data).
Proof. unfold Raw._parse_pokemon_data, Raw.stat_step. solve_quiet. Qed.

(** X7. The two lookups over the replies of the session.  On a reply that is
    absent (a failed request, a status other than 200, invalid JSON) or has
    a body of the documented shape, [get_pokemon_by_name] raises nothing and
    returns what the typed lookup returns on the typed projection of the
    body, and [get_pokemon_by_type] returns the names of the typed listing.
    An exception of a lookup is a [KeyError], [TypeError] or
    [AttributeError], and then the reply has status 200 and a decoded body
    that is not of the documented shape.  [get_pokemon_by_name] prints one
    line, with the name as it was passed, exactly when the request failed or
    the body of a 200 reply is not valid JSON; parsing prints nothing. *)
Theorem lookups_refine_typed_lookups (order : SetOrder) (table : gmap string type_entry)
    (session_get : string → Raw.reply) (pokemon_name pokemon_type : string) :
  let by_name := Raw.get_pokemon_by_name order table session_get (Raw.JStr pokemon_name) in
  let by_type := Raw.get_pokemon_by_type session_get pokemon_type in
  let name_reply := session_get (Raw.BASE_URL +:+ "/pokemon/" +:+ lower pokemon_name) in
  let type_reply := session_get (Raw.BASE_URL +:+ "/type/" +:+ lower pokemon_type) in
  (Raw.absent_or_typed Raw.typed_pokemon name_reply →
     outcome by_name
     = inr (raw_record
              <$> get_pokemon_by_name order table (Raw.http_pokemon session_get)
                    pokemon_name))
  ∧ (Raw.absent_or_typed Raw.typed_names type_reply →
     outcome by_type
     = inr (Raw.JStr <$> get_pokemon_by_type (Raw.http_type session_get) pokemon_type))
  ∧ (∀ e, outcome by_name = inl e →
       shape_error e
       ∧ ∃ data, Raw.decoded name_reply = Some data ∧ Raw.typed_pokemon data = None)
  ∧ (∀ e, outcome by_type = inl e →
       shape_error e
       ∧ ∃ data, Raw.decoded type_reply = Some data ∧ Raw.typed_names data = None)
  ∧ by_name.1
    = match name_reply with
      | Raw.RequestException message =>
          [Print ("Error fetching Pokémon " +:+ pokemon_name +:+ ": " +:+ message)]
      | Raw.Response status_code (Raw.InvalidJSON message) =>
          if decide (status_code = 200)
          then [Print ("Error fetching Pokémon " +:+ pokemon_name +:+ ": " +:+ message)]
          else []
      | Raw.Response _ (Raw.Json _) => []
      end.
Proof.
  intros by_name by_type name_reply type_reply.
  split; [apply outcome_get_pokemon_by_name|]. split; [apply outcome_get_pokemon_by_type|].
  split; [|split].
  - intros e He. split; [by apply (shape_errors_get_pokemon_by_name _ _ _ _ e He)|].
    destruct (Raw.decoded name_reply) as [data|] eqn:Hdecoded.
    + exists data. split; [done|].
      destruct (Raw.typed_pokemon data) as [typed|] eqn:Htyped; [|done].
      unfold by_name in He. rewrite outcome_get_pokemon_by_name in He; [done|].
      unfold Raw.absent_or_typed. fold name_reply. rewrite Hdecoded. by eexists.
    + unfold by_name in He. rewrite outcome_get_pokemon_by_name in He; [done|].
      unfold Raw.absent_or_typed. fold name_reply. by rewrite Hdecoded.
  - intros e He. split; [by apply (shape_errors_get_pokemon_by_type _ _ e He)|].
    destruct (Raw.decoded type_reply) as [data|] eqn:Hdecoded.
    + exists data. split; [done|].
      destruct (Raw.typed_names data) as [typed|] eqn:Htyped; [|done].
      unfold by_type in He. rewrite outcome_get_pokemon_by_type in He; [done|].
      unfold Raw.absent_or_typed. fold type_reply. rewrite Hdecoded. by eexists.
    + unfold by_type in He. rewrite outcome_get_pokemon_by_type in He; [done|].
      unfold Raw.absent_or_typed. fold type_reply. by rewrite Hdecoded.
  - unfold by_name, Raw.get_pokemon_by_name. fold name_reply.
    destruct name_reply as [message|status_code [data|message]]; [done| |].
    + destruct (decide (status_code = 200)) as [_|_]; [|done].
      apply quiet_bind; [apply quiet_parse|]. intros pokemon. apply quiet_ret.
    + by destruct (decide (status_code = 200)).
Qed.

(** The failed request for vulpix and the nameless body for charmander. *)
Lemma lookups_refine_typed_lookups_witness :
  outcome (Raw.get_pokemon_by_name gset_order _get_simplified_type_chart charmander_session
             (Raw.JStr "Vulpix"))
  = inr None
  ∧ (Raw.get_pokemon_by_name gset_order _get_simplified_type_chart charmander_session
       (Raw.JStr "Vulpix")).1
    = [Print "Error fetching Pokémon Vulpix: Connection refused"]
  ∧ Raw.typed_pokemon
      (Raw.JDict
         [("id", Raw.JInt 4);
          ("types", Raw.JList
             [Raw.JDict [("slot", Raw.JInt 1);
                         ("type", Raw.JDict [("name", Raw.JStr "fire")])]]);
          ("stats", Raw.JList
             [Raw.JDict [("base_stat", Raw.JInt 39);
                         ("stat", Raw.JDict [("name", Raw.JStr "hp")])]])])
    = None.
Proof.
  destruct (lookups_refine_typed_lookups gset_order _get_simplified_type_chart
              charmander_session "Vulpix" "fire") as (Hname & _ & _ & _ & Hprints).
  split; [|split].
  - rewrite Hname; [|by vm_compute]. vm_compute. reflexivity.
  - rewrite Hprints. vm_compute. reflexivity.
  - destruct (lookups_refine_typed_lookups gset_order _get_simplified_type_chart
                nameless_session "charmander" "fire") as (_ & _ & Hraise & _).
    destruct (Hraise KeyError) as (_ & data & Hdata & Htyped); [vm_compute; reflexivity|].
    vm_compute in Hdata. injection Hdata as <-. exact Htyped.
Defined.
